(** * Ana v1 primitive: the tick engine of [Ana.py], embedded and verified

    The development follows [src/Ana.py].  Python integers are [Z], Python
    lists are [list Z] read and written through [getitem] and [setitem]
    (negative indices wrap once, anything else raises [IndexError]), and
    the body of the [for t in range(1, steps + 1)] loop of [simulate] is
    the function [tick].  Exceptions are values of a small error monad.

    Pacing ([input], [time.sleep]) and [print_legend] neither read nor
    write anything the loop uses afterwards and are left out; the [events]
    list that the loop prints is returned by [tick], and the rendering
    ([render_circle], [s_char], [halo_char]) is embedded on its own, as a
    function of the state it is called on. *)

From Stdlib Require Import ZArith List String Ascii Bool Lia.
Import ListNotations.
Open Scope Z_scope.

Module Ana.

(** ** Python exceptions as an error monad *)

Inductive exn : Type := IndexError | KeyError.

Inductive py (A : Type) : Type :=
| Ok (a : A)
| Raise (e : exn).

Arguments Ok {A} a.
Arguments Raise {A} e.

Definition bind {A B : Type} (m : py A) (k : A -> py B) : py B :=
  match m with
  | Ok a => k a
  | Raise e => Raise e
  end.

Notation "x <- m ;; k" := (bind m (fun x => k))
  (at level 61, m at next level, right associativity).

(** ** Lists with Python indexing *)

(** [l[i]] for an integer [i]: an index in [-len, 0) counts from the end. *)
Definition norm_index (len i : Z) : py nat :=
  let j := if i <? 0 then i + len else i in
  if (0 <=? j) && (j <? len) then Ok (Z.to_nat j) else Raise IndexError.

Fixpoint update (l : list Z) (n : nat) (v : Z) : list Z :=
  match l, n with
  | [], _ => []
  | _ :: r, O => v :: r
  | x :: r, S m => x :: update r m v
  end.

Definition getitem (l : list Z) (i : Z) : py Z :=
  n <- norm_index (Z.of_nat (List.length l)) i ;;
  match nth_error l n with
  | Some v => Ok v
  | None => Raise IndexError
  end.

Definition setitem (l : list Z) (i v : Z) : py (list Z) :=
  n <- norm_index (Z.of_nat (List.length l)) i ;;
  Ok (update l n v).

(** [range(n)] *)
Definition range (n : Z) : list Z := map Z.of_nat (seq 0 (Z.to_nat n)).

(** [for i in idx: a = body(i, a)] *)
Fixpoint for_each {A : Type} (idx : list Z) (body : Z -> A -> py A) (a : A)
  : py A :=
  match idx with
  | [] => Ok a
  | i :: rest => a' <- body i a ;; for_each rest body a'
  end.

(** ** Ring topology (lines 30-42) *)

Definition TILES : list string := ["A"; "B"; "C"; "D"; "E"; "F"]%string.

Definition N : Z := Z.of_nat (List.length TILES).

Fixpoint enumerate_find (t : string) (l : list string) (i : Z) : option Z :=
  match l with
  | [] => None
  | x :: r => if String.eqb x t then Some i else enumerate_find t r (i + 1)
  end.

(** [IDX[t]].  The source only looks up the literal keys "A", "B" and "C",
    all of them tiles, so the [KeyError] of a missing key never arises; the
    default stands for it. *)
Definition IDX (t : string) : Z :=
  match enumerate_find t TILES 0 with
  | Some i => i
  | None => -1
  end.

Definition left (i : Z) : Z := (i - 1) mod N.

Definition right (i : Z) : Z := (i + 1) mod N.

Definition domain_sign (i : Z) : Z :=
  if (i =? IDX "A") || (i =? IDX "B") || (i =? IDX "C") then 1 else -1.

(** The dictionary lookup of [s_char]. *)
Definition s_char (v : Z) : py string :=
  if v =? 1 then Ok "+"%string
  else if v =? 0 then Ok "0"%string
  else if v =? -1 then Ok "-"%string
  else Raise KeyError.

(** ** Boundary evaluator (lines 54-60) *)

Definition eff (S buf : list Z) (i : Z) : py Z :=
  s <- getitem S i ;;
  if s =? 0 then getitem buf i else Ok s.

Definition boundary_strict_effective (S buf : list Z) (i : Z) : py bool :=
  a <- eff S buf (left i) ;;
  b <- eff S buf (right i) ;;
  Ok (a + b =? 0).

(** ** Task control block (lines 62-74) *)

Record Task : Type := mkTask {
  t_P : Z;
  t_D : Z;
  t_TTL : Z;
  t_FAILCOUNT : Z;
  t_DIR : string;
  t_K : Z;
  t_H : Z;
  t_PARK : Z
}.

(** [Task(TTL=TTL)]: every other field takes its dataclass default. *)
Definition new_Task (TTL : Z) : Task :=
  mkTask 1 1 TTL 0 "CW" 3 2 0.

Definition step_baton (pos : Z) (direction : string) : Z :=
  if String.eqb direction "CW" then right pos else left pos.

(** ** State of the loop of [simulate] *)

Record state : Type := mkState {
  st_S : list Z;
  st_E : list Z;
  st_buf : list Z;
  st_baton_pos : Z;
  st_task : Task
}.

(** The keyword parameters of [simulate] that the loop body reads. *)
Record config : Type := mkConfig {
  Hshadow : Z;
  Emax : Z
}.

(** The entries appended to [events]; an f-string entry carries the values
    it interpolates. *)
Inductive event : Type :=
| ARRIVE_C
| JUMP
| BOUNDARY (lb rb : bool)
| ACT_MIRROR
| TTL_TO (ttl : Z)
| RE_ARM
| DONE
| HESITATE (e : Z)
| REV_DIR (d : string)
| FAIL_TO (n : Z)
| ESCALATE (h : Z) (c : string).

(** What a tick prints: the [(PARK)] header, or the header with [events]. *)
Inductive report : Type :=
| Parked
| Moved (events : list event).

(** Lines 129-140. *)
Definition initial_state (TTL : Z) : py state :=
  let S := [1; 1; 1; -1; -1; -1] in
  let E := repeat 0 (Z.to_nat N) in
  let buf := map domain_sign (range N) in
  let baton_pos := IDX "A" in
  S <- setitem S baton_pos 0 ;;
  Ok (mkState S E buf baton_pos (new_Task TTL)).

(** Lines 153-156. *)
Definition decay_shadows (E : list Z) : py (list Z) :=
  for_each (range N)
    (fun i E =>
       e <- getitem E i ;;
       if e >? 0 then setitem E i (e - 1) else Ok E)
    E.

(** Lines 165-172: release the old tile, read [prev], acquire the new one. *)
Definition move_baton (S : list Z) (baton_pos : Z) (direction : string)
  : py (list Z * Z * Z) :=
  let old := baton_pos in
  let new := step_baton baton_pos direction in
  S <- setitem S old (domain_sign old) ;;
  let baton_pos := new in
  prev <- getitem S baton_pos ;;
  S <- setitem S baton_pos 0 ;;
  Ok (S, baton_pos, prev).

(** Lines 191-211: the ACT attempt succeeded. *)
Definition act_success (c : config) (S E buf : list Z) (baton_pos L R : Z)
  (task : Task) (events : list event) : py (state * report) :=
  eL <- getitem E L ;;
  E <- setitem E L (Z.max eL (Hshadow c)) ;;
  eR <- getitem E R ;;
  E <- setitem E R (Z.max eR (Hshadow c)) ;;
  E <- setitem E (IDX "C") 0 ;;
  let ttl := t_TTL task - 1 in
  let events := events ++ [ACT_MIRROR; TTL_TO ttl] in
  if ttl >? 0 then
    Ok (mkState S E buf baton_pos
          (mkTask (t_P task) 1 ttl 0 (t_DIR task) (t_K task) (t_H task)
                  (t_PARK task)),
        Moved (events ++ [RE_ARM]))
  else
    Ok (mkState S E buf baton_pos
          (mkTask 0 0 ttl 0 (t_DIR task) (t_K task) (t_H task)
                  (t_PARK task)),
        Moved (events ++ [DONE])).

(** Lines 212-226: the ACT attempt failed. *)
Definition act_fail (c : config) (S E buf : list Z) (baton_pos : Z)
  (task : Task) (events : list event) : py (state * report) :=
  eC <- getitem E (IDX "C") ;;
  E <- setitem E (IDX "C") (Z.min (eC + 1) (Emax c)) ;;
  eC <- getitem E (IDX "C") ;;
  let events := events ++ [HESITATE eC] in
  let dir := if String.eqb (t_DIR task) "CW" then "CCW"%string
             else "CW"%string in
  let failcount := t_FAILCOUNT task + 1 in
  let events := events ++ [REV_DIR dir; FAIL_TO failcount] in
  if failcount >=? t_K task then
    bC <- getitem buf (IDX "C") ;;
    buf <- setitem buf (IDX "C") (bC * -1) ;;
    bC <- getitem buf (IDX "C") ;;
    ch <- s_char bC ;;
    Ok (mkState S E buf baton_pos
          (mkTask (t_P task) (t_D task) (t_TTL task) 0 dir (t_K task)
                  (t_H task) (t_H task)),
        Moved (events ++ [ESCALATE (t_H task) ch]))
  else
    Ok (mkState S E buf baton_pos
          (mkTask (t_P task) (t_D task) (t_TTL task) failcount dir
                  (t_K task) (t_H task) (t_PARK task)),
        Moved events).

(** Lines 153-232: one iteration of the loop. *)
Definition tick (c : config) (s : state) : py (state * report) :=
  let task := st_task s in
  E <- decay_shadows (st_E s) ;;
  if t_PARK task >? 0 then
    Ok (mkState (st_S s) E (st_buf s) (st_baton_pos s)
          (mkTask (t_P task) (t_D task) (t_TTL task) (t_FAILCOUNT task)
                  (t_DIR task) (t_K task) (t_H task) (t_PARK task - 1)),
        Parked)
  else
    m <- move_baton (st_S s) (st_baton_pos s) (t_DIR task) ;;
    let S := fst (fst m) in
    let baton_pos := snd (fst m) in
    let prev := snd m in
    let buf := st_buf s in
    let arrive_c :=
      (baton_pos =? IDX "C") && ((prev =? 1) || (prev =? -1)) in
    if arrive_c && (t_P task =? 1) then
      let events := [ARRIVE_C] in
      if t_D task =? 1 then
        Ok (mkState S E buf baton_pos
              (mkTask (t_P task) 0 (t_TTL task) (t_FAILCOUNT task)
                      (t_DIR task) (t_K task) (t_H task) (t_PARK task)),
            Moved (events ++ [JUMP]))
      else
        let L := left baton_pos in
        let R := right baton_pos in
        lb <- boundary_strict_effective S buf L ;;
        rb <- boundary_strict_effective S buf R ;;
        let events := events ++ [BOUNDARY lb rb] in
        if lb && rb then act_success c S E buf baton_pos L R task events
        else act_fail c S E buf baton_pos task events
    else
      Ok (mkState S E buf baton_pos task, Moved []).

(** The loop: the snapshot and the report of every tick, in order. *)
Fixpoint run (c : config) (n : nat) (s : state) : py (list (state * report)) :=
  match n with
  | O => Ok []
  | S n' =>
      sr <- tick c s ;;
      rest <- run c n' (fst sr) ;;
      Ok (sr :: rest)
  end.

(** The state the loop has reached after the snapshots [tr]. *)
Definition final (s : state) (tr : list (state * report)) : state :=
  fst (last tr (s, Parked)).

(** [simulate(steps, _, _, Hshadow, Emax, TTL)]: [range(1, steps + 1)] has
    [max(steps, 0)] elements. *)
Definition simulate (steps Hshadow Emax TTL : Z)
  : py (state * list (state * report)) :=
  s0 <- initial_state TTL ;;
  tr <- run (mkConfig Hshadow Emax) (Z.to_nat steps) s0 ;;
  Ok (s0, tr).

(** The defaults of [simulate] and of the [argparse] options of [main]. *)
Definition default_steps : Z := 80.
Definition default_Hshadow : Z := 3.
Definition default_Emax : Z := 6.
Definition default_TTL : Z := 3.

(** ** Pure views of the loop body, used to state what a tick does *)

(** One step of shadow decay on a single level. *)
Definition dec (e : Z) : Z := if e >? 0 then e - 1 else e.

Definition decayed (E : list Z) : list Z := map dec E.

Definition at_ (l : list Z) (i : Z) : Z := nth (Z.to_nat i) l 0.

Definition put (l : list Z) (i v : Z) : list Z := update l (Z.to_nat i) v.

(** [S] after the release of [pos] and after the acquisition of the next
    tile, and the value [prev] read in between. *)
Definition released (S : list Z) (pos : Z) : list Z :=
  put S pos (domain_sign pos).

Definition acquired (S : list Z) (pos : Z) (dir : string) : list Z :=
  put (released S pos) (step_baton pos dir) 0.

Definition prev_value (S : list Z) (pos : Z) (dir : string) : Z :=
  at_ (released S pos) (step_baton pos dir).

Definition eff_value (S buf : list Z) (i : Z) : Z :=
  if at_ S i =? 0 then at_ buf i else at_ S i.

Definition boundary_value (S buf : list Z) (i : Z) : bool :=
  eff_value S buf (left i) + eff_value S buf (right i) =? 0.

Definition reverse_dir (d : string) : string :=
  if String.eqb d "CW" then "CCW"%string else "CW"%string.

(** The test of line 177 at the state [s]. *)
Definition arrives (s : state) : bool :=
  let new := step_baton (st_baton_pos s) (t_DIR (st_task s)) in
  let prev := prev_value (st_S s) (st_baton_pos s) (t_DIR (st_task s)) in
  (new =? IDX "C") && ((prev =? 1) || (prev =? -1))
  && (t_P (st_task s) =? 1).

Definition is_sign (v : Z) : Prop := v = 1 \/ v = -1.

(** The shape of the data of [simulate]: three lists of [N] integers, a
    baton position on the ring, buffered signs. *)
Record well_formed (s : state) : Prop := mkWf {
  wf_S : List.length (st_S s) = 6%nat;
  wf_E : List.length (st_E s) = 6%nat;
  wf_buf : List.length (st_buf s) = 6%nat;
  wf_pos : 0 <= st_baton_pos s < 6;
  wf_signs : Forall is_sign (st_buf s)
}.

Section TickSpec.

Variable c : config.
Variable s : state.

Let task := st_task s.
Let S' := acquired (st_S s) (st_baton_pos s) (t_DIR task).
Let E' := decayed (st_E s).
Let new := step_baton (st_baton_pos s) (t_DIR task).
Let lb := boundary_value S' (st_buf s) (left new).
Let rb := boundary_value S' (st_buf s) (right new).

(** The branches of the loop body, one constructor each. *)
Inductive tick_spec : state -> report -> Prop :=
| TS_park :
    t_PARK task > 0 ->
    tick_spec
      (mkState (st_S s) E' (st_buf s) (st_baton_pos s)
         (mkTask (t_P task) (t_D task) (t_TTL task) (t_FAILCOUNT task)
            (t_DIR task) (t_K task) (t_H task) (t_PARK task - 1)))
      Parked
| TS_pass :
    t_PARK task <= 0 -> arrives s = false ->
    tick_spec (mkState S' E' (st_buf s) new task) (Moved [])
| TS_jump :
    t_PARK task <= 0 -> arrives s = true -> t_D task = 1 ->
    tick_spec
      (mkState S' E' (st_buf s) new
         (mkTask (t_P task) 0 (t_TTL task) (t_FAILCOUNT task)
            (t_DIR task) (t_K task) (t_H task) (t_PARK task)))
      (Moved [ARRIVE_C; JUMP])
| TS_success :
    t_PARK task <= 0 -> arrives s = true -> t_D task <> 1 ->
    lb = true -> rb = true ->
    let E2 := put E' (left new) (Z.max (at_ E' (left new)) (Hshadow c)) in
    let E3 := put E2 (right new) (Z.max (at_ E2 (right new)) (Hshadow c)) in
    let E4 := put E3 (IDX "C") 0 in
    let ttl := t_TTL task - 1 in
    tick_spec
      (mkState S' E4 (st_buf s) new
         (mkTask (if ttl >? 0 then t_P task else 0)
            (if ttl >? 0 then 1 else 0) ttl 0
            (t_DIR task) (t_K task) (t_H task) (t_PARK task)))
      (Moved [ARRIVE_C; BOUNDARY true true; ACT_MIRROR; TTL_TO ttl;
              if ttl >? 0 then RE_ARM else DONE])
| TS_fail :
    t_PARK task <= 0 -> arrives s = true -> t_D task <> 1 ->
    lb && rb = false ->
    t_FAILCOUNT task + 1 < t_K task ->
    let eC := Z.min (at_ E' (IDX "C") + 1) (Emax c) in
    tick_spec
      (mkState S' (put E' (IDX "C") eC) (st_buf s) new
         (mkTask (t_P task) (t_D task) (t_TTL task) (t_FAILCOUNT task + 1)
            (reverse_dir (t_DIR task)) (t_K task) (t_H task) (t_PARK task)))
      (Moved [ARRIVE_C; BOUNDARY lb rb; HESITATE eC;
              REV_DIR (reverse_dir (t_DIR task));
              FAIL_TO (t_FAILCOUNT task + 1)])
| TS_escalate :
    t_PARK task <= 0 -> arrives s = true -> t_D task <> 1 ->
    lb && rb = false ->
    t_FAILCOUNT task + 1 >= t_K task ->
    let eC := Z.min (at_ E' (IDX "C") + 1) (Emax c) in
    let bC := at_ (st_buf s) (IDX "C") * -1 in
    forall ch, s_char bC = Ok ch ->
    tick_spec
      (mkState S' (put E' (IDX "C") eC) (put (st_buf s) (IDX "C") bC) new
         (mkTask (t_P task) (t_D task) (t_TTL task) 0
            (reverse_dir (t_DIR task)) (t_K task) (t_H task) (t_H task)))
      (Moved [ARRIVE_C; BOUNDARY lb rb; HESITATE eC;
              REV_DIR (reverse_dir (t_DIR task));
              FAIL_TO (t_FAILCOUNT task + 1);
              ESCALATE (t_H task) ch]).

End TickSpec.

(** ** Predicates on states, reports and traces *)

Definition events_of (r : report) : list event :=
  match r with
  | Parked => []
  | Moved events => events
  end.

Definition trace_events (tr : list (state * report)) : list event :=
  List.concat (map (fun sr => events_of (snd sr)) tr).

Definition is_ARRIVE_C (e : event) : bool :=
  match e with ARRIVE_C => true | _ => false end.

Definition is_ACT_MIRROR (e : event) : bool :=
  match e with ACT_MIRROR => true | _ => false end.

Definition is_HESITATE (e : event) : bool :=
  match e with HESITATE _ => true | _ => false end.

Definition is_REV_DIR (e : event) : bool :=
  match e with REV_DIR _ => true | _ => false end.

Definition is_ESCALATE (e : event) : bool :=
  match e with ESCALATE _ _ => true | _ => false end.

Definition is_BOUNDARY (e : event) : bool :=
  match e with BOUNDARY _ _ => true | _ => false end.

Definition count_ev (p : event -> bool) (evs : list event) : nat :=
  List.length (filter p evs).

(** An ACT attempt is made in the tick that starts at [s]: not parked, the
    baton arrives at C with the task active, and the jump flag is down. *)
Definition act_attempt (s : state) : Prop :=
  t_PARK (st_task s) <= 0 /\ arrives s = true /\ t_D (st_task s) <> 1.

(** The two boundary tests of an ACT attempt, on [S] as it is after the
    move and on [buf] as it is before any escalation. *)
Definition lb_of (s : state) : bool :=
  boundary_value
    (acquired (st_S s) (st_baton_pos s) (t_DIR (st_task s))) (st_buf s)
    (left (IDX "C")).

Definition rb_of (s : state) : bool :=
  boundary_value
    (acquired (st_S s) (st_baton_pos s) (t_DIR (st_task s))) (st_buf s)
    (right (IDX "C")).

(** Exactly one tile holds 0, the one under the baton; the others hold a
    polarity. *)
Definition single_baton (s : state) : Prop :=
  List.length (st_S s) = 6%nat /\
  0 <= st_baton_pos s < 6 /\
  forall i, 0 <= i < 6 ->
    (i = st_baton_pos s /\ at_ (st_S s) i = 0) \/
    (i <> st_baton_pos s /\ is_sign (at_ (st_S s) i)).

(** Every tile but the baton's holds its domain sign. *)
Definition released_at_domain (s : state) : Prop :=
  forall i, 0 <= i < 6 -> i <> st_baton_pos s ->
    at_ (st_S s) i = domain_sign i.

Definition levels_in (emax : Z) (E : list Z) : Prop :=
  List.length E = 6%nat /\
  forall i, 0 <= i < 6 -> 0 <= at_ E i <= emax.

Definition shadow_bounded (emax : Z) (s : state) : Prop :=
  levels_in emax (st_E s).

(** The test of line 175 lets every arrival at C through. *)
Definition guard_transparent (s : state) : Prop :=
  is_sign (prev_value (st_S s) (st_baton_pos s) (t_DIR (st_task s))) /\
  arrives s
  = (step_baton (st_baton_pos s) (t_DIR (st_task s)) =? IDX "C")
    && (t_P (st_task s) =? 1).

(** The same on the code itself: [move_baton] returns a polarity as [prev],
    and a tick that moves reports ARRIVE_C exactly when the tile
    [move_baton] has moved to is C and the task is active, on the [S] and
    the position that [move_baton] returned. *)
Definition guard_never_suppresses (c : config) (s : state) : Prop :=
  exists S' new prev,
    move_baton (st_S s) (st_baton_pos s) (t_DIR (st_task s))
    = Ok (S', new, prev) /\
    is_sign prev /\
    (t_PARK (st_task s) <= 0 ->
     exists s' evs,
       tick c s = Ok (s', Moved evs) /\
       st_S s' = S' /\ st_baton_pos s' = new /\
       (In ARRIVE_C evs <-> new = IDX "C" /\ t_P (st_task s) = 1)).

(** The domain signs of the ring, as [simulate] builds [buf]. *)
Definition domains : list Z := map domain_sign (range N).

(** What every state of a run looks like: [S] is the domain signs with a 0
    under the baton, [buf] is the domain signs up to the sign at C, and the
    task keeps the dataclass defaults of [K] and [H]. *)
Record run_shape (s : state) : Prop := mkShape {
  sh_pos : 0 <= st_baton_pos s < 6;
  sh_S : st_S s = put domains (st_baton_pos s) 0;
  sh_E : List.length (st_E s) = 6%nat;
  sh_buf : exists b, is_sign b /\ st_buf s = put domains (IDX "C") b;
  sh_K : t_K (st_task s) = 3;
  sh_H : t_H (st_task s) = 2
}.

(** The tiles the baton visits in the next [n] moves. *)
Fixpoint orbit (d : string) (n : nat) (pos : Z) : list Z :=
  match n with
  | O => []
  | S n' => step_baton pos d :: orbit d n' (step_baton pos d)
  end.

(** ** Sample states *)

(** The state [simulate] starts from with the default [TTL]. *)
Definition default_start : state :=
  mkState [0; 1; 1; -1; -1; -1] [0; 0; 0; 0; 0; 0] [1; 1; 1; -1; -1; -1] 0
          (new_Task default_TTL).

(** Parked after an escalation at C. *)
Definition parked_state : state :=
  mkState [1; 1; 0; -1; -1; -1] [0; 0; 3; 0; 0; 0] [1; 1; -1; -1; -1; -1] 2
          (mkTask 1 0 3 0 "CCW" 3 2 2).

(** One move before an ACT attempt whose two boundary tests hold: tile E
    holds +1 and [buf[C]] is -1. *)
Definition mirror_state (ttl failcount : Z) : state :=
  mkState [1; 0; 1; -1; 1; -1] [0; 5; 4; 1; 0; 0] [1; 1; -1; -1; -1; -1] 1
          (mkTask 1 0 ttl failcount "CW" 3 2 0).

(** The state of the default run before its first ACT attempt (tick 8),
    with a chosen failure count. *)
Definition attempt_state (failcount : Z) : state :=
  mkState [1; 0; 1; -1; -1; -1] [0; 0; 0; 0; 0; 0] [1; 1; 1; -1; -1; -1] 1
          (mkTask 1 0 3 failcount "CW" 3 2 0).

(** The branch of a tick is read off [tick_spec]; the cases the hypotheses
    in the context exclude are closed at once. *)
Ltac tick_branches Hsp :=
  inversion Hsp; subst;
  repeat match goal with x := _ |- _ => subst x end;
  try lia; try congruence.

(** ** Rendering (lines 44-52 and 88-119)

    A Python string is rendered here as the list of its characters, each
    a one-character string (a cell of the canvas).  [TILES[i]], the values
    of [s_char] and the values of [halo_char] are single characters, so
    the f-string of a tile mark is the list of its eight cells.  A
    [string] holds the UTF-8 bytes of the Python string it stands for (as
    [middle_dot] below does), so its characters are its code points: a
    byte that is not a continuation byte, with the continuation bytes
    that follow it. *)

(** U+00B7, the middle dot, in UTF-8. *)
Definition middle_dot : string :=
  String (ascii_of_nat 194) (String (ascii_of_nat 183) EmptyString).

Definition halo_char (e : Z) : string :=
  if e <=? 0 then " "%string
  else if e =? 1 then middle_dot
  else if e =? 2 then "o"%string
  else "*"%string.

(** [l[i]] and [l[i] = v] on a list of any element type. *)
Definition item {A : Type} (l : list A) (i : Z) : py A :=
  n <- norm_index (Z.of_nat (List.length l)) i ;;
  match nth_error l n with
  | Some v => Ok v
  | None => Raise IndexError
  end.

Fixpoint replace_nth {A : Type} (l : list A) (n : nat) (v : A) : list A :=
  match l, n with
  | [], _ => []
  | _ :: r, O => v :: r
  | x :: r, S m => x :: replace_nth r m v
  end.

Definition set_item {A : Type} (l : list A) (i : Z) (v : A) : py (list A) :=
  n <- norm_index (Z.of_nat (List.length l)) i ;;
  Ok (replace_nth l n v).

(** [for x in xs: a = body(x, a)] *)
Fixpoint for_in {X A : Type} (xs : list X) (body : X -> A -> py A) (a : A)
  : py A :=
  match xs with
  | [] => Ok a
  | x :: rest => a' <- body x a ;; for_in rest body a'
  end.

(** A UTF-8 continuation byte, [10xxxxxx]. *)
Definition is_continuation (a : ascii) : bool :=
  (128 <=? nat_of_ascii a)%nat && (nat_of_ascii a <? 192)%nat.

(** The continuation bytes [s] starts with, then the code points of the
    rest, one cell each. *)
Fixpoint split_continuation (s : string) : string * list string :=
  match s with
  | EmptyString => (EmptyString, [])
  | String a r =>
      let kc := split_continuation r in
      if is_continuation a then (String a (fst kc), snd kc)
      else (EmptyString, String a (fst kc) :: snd kc)
  end.

(** The characters of a string, as [enumerate] goes through them.  (Bytes
    that start with a continuation byte encode no Python string; such a
    prefix is kept as a cell of its own.) *)
Definition chars (s : string) : list string :=
  let kc := split_continuation s in
  match fst kc with
  | EmptyString => snd kc
  | k => k :: snd kc
  end.

(** The dictionary [layout], in insertion order, and its lookup. *)
Definition layout_items : list (Z * (Z * Z)) :=
  [(0, (2, 6)); (1, (0, 10)); (2, (2, 14));
   (3, (6, 14)); (4, (8, 10)); (5, (6, 6))].

Fixpoint dict_get (items : list (Z * (Z * Z))) (k : Z) : py (Z * Z) :=
  match items with
  | [] => Raise KeyError
  | (k', v) :: rest => if k =? k' then Ok v else dict_get rest k
  end.

Definition layout (k : Z) : py (Z * Z) := dict_get layout_items k.

Definition canvas : Type := list (list string).

(** [[[" "] * 28 for _ in range(13)]] *)
Definition blank_canvas : canvas := repeat (repeat " "%string 28) 13.

(** [canvas[r][c] = ch] *)
Definition set_cell (cv : canvas) (r c : Z) (ch : string) : py canvas :=
  row <- item cv r ;;
  row <- set_item row c ch ;;
  set_item cv r row.

(** [for j, ch in enumerate(cells): canvas[r][c + j] = ch] *)
Fixpoint write_cells (cv : canvas) (r c : Z) (cells : list string)
  : py canvas :=
  match cells with
  | [] => Ok cv
  | ch :: rest => cv <- set_cell cv r c ch ;; write_cells cv r (c + 1) rest
  end.

(** The body of the loop over [layout.items()] (lines 100-107). *)
Definition draw_tile (S E buf : list Z) (it : Z * (Z * Z)) (cv : canvas)
  : py canvas :=
  let i := fst it in
  let r := fst (snd it) in
  let c := snd (snd it) in
  tile <- item TILES i ;;
  sv <- getitem S i ;;
  s <- s_char sv ;;
  ev <- getitem E i ;;
  let h := halo_char ev in
  bv <- getitem buf i ;;
  b <- s_char bv ;;
  write_cells cv r c
    [tile; ":"; s; h; "["; "b"; b; "]"]%string.

(** Lines 98-117: the canvas before it is joined. *)
Definition render_canvas (S E buf : list Z) (baton_pos : Z)
    (direction : string) : py canvas :=
  cv <- for_in layout_items (draw_tile S E buf) blank_canvas ;;
  brbc <- layout baton_pos ;;
  let br := fst brbc in
  let bc := snd brbc in
  cv <- set_cell cv (Z.max (br - 2) 0) (bc + 1) "B"%string ;;
  cv <- set_cell cv (Z.max (br - 1) 0) (bc + 1) "^"%string ;;
  write_cells cv 11 0 (chars ("DIR=" ++ direction)).

Definition newline : string := String (ascii_of_nat 10) EmptyString.

Definition render_circle (S E buf : list Z) (baton_pos : Z)
    (direction : string) : py string :=
  cv <- render_canvas S E buf baton_pos direction ;;
  Ok (String.concat newline (map (String.concat EmptyString) cv)).

(** [render_circle] at a state of the loop, as [simulate] calls it. *)
Definition render_state (s : state) : py string :=
  render_circle (st_S s) (st_E s) (st_buf s) (st_baton_pos s)
    (t_DIR (st_task s)).

(** The cell at row [r], column [c], a blank outside the canvas. *)
Definition cell (cv : canvas) (r c : Z) : string :=
  nth (Z.to_nat c) (nth (Z.to_nat r) cv []) " "%string.

Definition canvas_shape (cv : canvas) : Prop :=
  List.length cv = 13%nat /\
  Forall (fun row => List.length row = 28%nat) cv.

Definition trit (v : Z) : Prop := v = 1 \/ v = 0 \/ v = -1.

(** Data [render_circle] accepts: lists of [N] polarities and levels, a
    key of [layout], a direction of at most 24 characters, so that its
    label fits the canvas. *)
Record renderable (s : state) : Prop := mkRenderable {
  rd_S : List.length (st_S s) = 6%nat;
  rd_E : List.length (st_E s) = 6%nat;
  rd_buf : List.length (st_buf s) = 6%nat;
  rd_S_trits : Forall trit (st_S s);
  rd_buf_trits : Forall trit (st_buf s);
  rd_pos : 0 <= st_baton_pos s < 6;
  rd_dir : (List.length (chars (t_DIR (st_task s))) <= 24)%nat
}.

(** Pure views of the canvas writes. *)
Fixpoint paint_at (cv : canvas) (r c : nat) (ch : string) : canvas :=
  match cv, r with
  | [], _ => []
  | row :: rest, O => replace_nth row c ch :: rest
  | row :: rest, S m => row :: paint_at rest m c ch
  end.

Definition paint (cv : canvas) (r c : Z) (ch : string) : canvas :=
  paint_at cv (Z.to_nat r) (Z.to_nat c) ch.

Fixpoint paint_cells (cv : canvas) (r c : Z) (cells : list string) : canvas :=
  match cells with
  | [] => cv
  | ch :: rest => paint_cells (paint cv r c ch) r (c + 1) rest
  end.

(** The character [s_char] gives on +1, 0 and -1. *)
Definition sign_char (v : Z) : string :=
  if v =? 1 then "+"%string else if v =? 0 then "0"%string else "-"%string.

(** The eight cells of the mark of tile [i]. *)
Definition mark (S E buf : list Z) (i : Z) : list string :=
  [nth (Z.to_nat i) TILES EmptyString; ":"; sign_char (at_ S i);
   halo_char (at_ E i); "["; "b"; sign_char (at_ buf i); "]"]%string.

Definition tiles_drawn (S E buf : list Z) : canvas :=
  fold_left (fun cv it => paint_cells cv (fst (snd it)) (snd (snd it))
                            (mark S E buf (fst it)))
            layout_items blank_canvas.

(** The value of [layout[k]] for a key of the dictionary. *)
Definition layout_value (k : Z) : Z * Z :=
  match layout k with
  | Ok v => v
  | Raise _ => (0, 0)
  end.

Definition markers_drawn (S E buf : list Z) (baton_pos : Z) : canvas :=
  let br := fst (layout_value baton_pos) in
  let bc := snd (layout_value baton_pos) in
  paint (paint (tiles_drawn S E buf) (Z.max (br - 2) 0) (bc + 1) "B"%string)
        (Z.max (br - 1) 0) (bc + 1) "^"%string.

Definition canvas_of (s : state) : canvas :=
  paint_cells (markers_drawn (st_S s) (st_E s) (st_buf s) (st_baton_pos s))
              11 0 (chars ("DIR=" ++ t_DIR (st_task s))).

(** One iteration of the loop with what it prints (lines 153-232, pacing
    aside): the tick, then [render_circle] on the state the tick leaves,
    on a parked tick (line 162) as on a moving one (line 232). *)
Definition iteration (c : config) (s : state)
  : py (state * report * string) :=
  sr <- tick c s ;;
  out <- render_state (fst sr) ;;
  Ok (sr, out).

(** Data an iteration accepts: well-formed, with nothing in [S] that
    [s_char] does not know and a direction that fits the canvas. *)
Record printable (s : state) : Prop := mkPrintable {
  pr_wf : well_formed s;
  pr_S : Forall trit (st_S s);
  pr_dir : (List.length (chars (t_DIR (st_task s))) <= 24)%nat
}.

(** ** More predicates on runs *)

(** The task counters as every run keeps them. *)
Record counters_in_range (s : state) : Prop := mkCounters {
  cr_fail : 0 <= t_FAILCOUNT (st_task s) < 3;
  cr_park : 0 <= t_PARK (st_task s) <= 2;
  cr_dir : t_DIR (st_task s) = "CW"%string \/ t_DIR (st_task s) = "CCW"%string;
  cr_D : t_D (st_task s) = 0 \/ t_D (st_task s) = 1;
  cr_K : t_K (st_task s) = 3;
  cr_H : t_H (st_task s) = 2
}.

Definition is_JUMP (e : event) : bool :=
  match e with JUMP => true | _ => false end.

Definition is_DONE (e : event) : bool :=
  match e with DONE => true | _ => false end.

(** What holds of every state of a run started with budget [TTL]. *)
Record run_facts (TTL : Z) (s : state) : Prop := mkFacts {
  rf_shape : run_shape s;
  rf_counters : counters_in_range s;
  rf_P : t_P (st_task s) = 1;
  rf_TTL : t_TTL (st_task s) = TTL;
  rf_E : forall i, 0 <= i < 6 -> i <> IDX "C" -> at_ (st_E s) i = 0
}.

(** The hesitation level at C along a run: at most 1, and spent whenever
    the baton is elsewhere. *)
Definition hesitation_spent (s : state) : Prop :=
  at_ (st_E s) (IDX "C") <= 1 /\
  (st_baton_pos s <> IDX "C" -> at_ (st_E s) (IDX "C") <= 0).

(** ** Indexing lemmas *)

Lemma update_length (l : list Z) (n : nat) (v : Z) :
  List.length (update l n v) = List.length l.
Proof.
  revert n; induction l as [|x r IH]; intros [|m]; simpl; auto.
Qed.

Lemma put_length (l : list Z) (i v : Z) :
  List.length (put l i v) = List.length l.
Proof. apply update_length. Qed.

Lemma nth_update_same (l : list Z) (n : nat) (v d : Z) :
  (n < List.length l)%nat -> nth n (update l n v) d = v.
Proof.
  revert n; induction l as [|x r IH]; intros [|m] Hn; simpl in *;
    try lia; auto.
  apply IH; lia.
Qed.

Lemma nth_update_other (l : list Z) (n m : nat) (v d : Z) :
  n <> m -> nth m (update l n v) d = nth m l d.
Proof.
  revert n m; induction l as [|x r IH]; intros [|n] [|m] Hnm; simpl;
    try congruence; auto.
Qed.

Lemma norm_index_in_range (len i : Z) :
  0 <= i < len -> norm_index len i = Ok (Z.to_nat i).
Proof.
  intros Hi; unfold norm_index.
  destruct (Z.ltb_spec i 0); [lia|].
  destruct (Z.leb_spec 0 i); [|lia].
  destruct (Z.ltb_spec i len); [reflexivity|lia].
Qed.

Lemma getitem_in_range (l : list Z) (i : Z) :
  0 <= i < Z.of_nat (List.length l) -> getitem l i = Ok (at_ l i).
Proof.
  intros Hi; unfold getitem, at_.
  rewrite norm_index_in_range by assumption; simpl.
  rewrite (nth_error_nth' l 0) by lia; reflexivity.
Qed.

Lemma setitem_in_range (l : list Z) (i v : Z) :
  0 <= i < Z.of_nat (List.length l) -> setitem l i v = Ok (put l i v).
Proof.
  intros Hi; unfold setitem, put.
  rewrite norm_index_in_range by assumption; reflexivity.
Qed.

Lemma at_put_same (l : list Z) (i v : Z) :
  0 <= i < Z.of_nat (List.length l) -> at_ (put l i v) i = v.
Proof. intros Hi; unfold at_, put; apply nth_update_same; lia. Qed.

Lemma at_put_other (l : list Z) (i j v : Z) :
  0 <= i -> 0 <= j -> i <> j -> at_ (put l i v) j = at_ l j.
Proof. intros Hi Hj Hij; unfold at_, put; apply nth_update_other; lia. Qed.

Lemma at_decayed (E : list Z) (i : Z) : at_ (decayed E) i = dec (at_ E i).
Proof.
  unfold at_, decayed.
  change 0 with (dec 0) at 1; apply map_nth.
Qed.

Lemma decayed_length (E : list Z) : List.length (decayed E) = List.length E.
Proof. apply length_map. Qed.

(** ** Ring lemmas *)

Lemma N_is_6 : N = 6.
Proof. reflexivity. Qed.

Lemma IDX_keys : IDX "A" = 0 /\ IDX "B" = 1 /\ IDX "C" = 2.
Proof. repeat split. Qed.

Lemma left_range (i : Z) : 0 <= left i < 6.
Proof. unfold left; rewrite N_is_6; apply Z.mod_pos_bound; lia. Qed.

Lemma right_range (i : Z) : 0 <= right i < 6.
Proof. unfold right; rewrite N_is_6; apply Z.mod_pos_bound; lia. Qed.

Lemma step_baton_range (pos : Z) (d : string) : 0 <= step_baton pos d < 6.
Proof.
  unfold step_baton; destruct (String.eqb d "CW");
    [apply right_range | apply left_range].
Qed.

Lemma ring_cases (i : Z) :
  0 <= i < 6 -> i = 0 \/ i = 1 \/ i = 2 \/ i = 3 \/ i = 4 \/ i = 5.
Proof. lia. Qed.

Lemma step_baton_moves (pos : Z) (d : string) :
  0 <= pos < 6 -> step_baton pos d <> pos.
Proof.
  intros Hp; unfold step_baton.
  destruct (String.eqb d "CW");
    destruct (ring_cases pos Hp) as [->|[->|[->|[->|[->| ->]]]]];
    vm_compute; discriminate.
Qed.

(** ** The stages of a tick on well-formed data *)

Lemma decay_shadows_ok (E : list Z) :
  List.length E = 6%nat -> decay_shadows E = Ok (decayed E).
Proof.
  intros HE.
  do 6 (destruct E as [|? E]; [discriminate|]).
  destruct E; [|discriminate].
  unfold decay_shadows, decayed, dec; simpl.
  repeat match goal with
         | |- context [bind (if ?e >? 0 then _ else _) _] =>
             destruct (e >? 0); simpl
         end;
    reflexivity.
Qed.

Lemma move_baton_ok (S : list Z) (pos : Z) (d : string) :
  List.length S = 6%nat -> 0 <= pos < 6 ->
  move_baton S pos d
  = Ok (acquired S pos d, step_baton pos d, prev_value S pos d).
Proof.
  intros HS Hp; unfold move_baton, acquired, prev_value, released.
  pose proof (step_baton_range pos d) as Hn.
  rewrite setitem_in_range by (rewrite HS; lia); cbn [bind].
  rewrite getitem_in_range by (rewrite put_length, HS; lia); cbn [bind].
  rewrite setitem_in_range by (rewrite put_length, HS; lia); reflexivity.
Qed.

Lemma eff_ok (S buf : list Z) (i : Z) :
  List.length S = 6%nat -> List.length buf = 6%nat -> 0 <= i < 6 ->
  eff S buf i = Ok (eff_value S buf i).
Proof.
  intros HS Hb Hi; unfold eff, eff_value.
  rewrite getitem_in_range by (rewrite HS; lia); cbn [bind].
  destruct (at_ S i =? 0); [|reflexivity].
  apply getitem_in_range; rewrite Hb; lia.
Qed.

Lemma boundary_ok (S buf : list Z) (i : Z) :
  List.length S = 6%nat -> List.length buf = 6%nat ->
  boundary_strict_effective S buf i = Ok (boundary_value S buf i).
Proof.
  intros HS Hb; unfold boundary_strict_effective, boundary_value.
  rewrite !eff_ok by auto using left_range, right_range; reflexivity.
Qed.

Lemma acquired_length (S : list Z) (pos : Z) (d : string) :
  List.length (acquired S pos d) = List.length S.
Proof. unfold acquired, released; rewrite !put_length; reflexivity. Qed.

Lemma s_char_sign (v : Z) : is_sign v -> exists ch, s_char (v * -1) = Ok ch.
Proof. intros [->| ->]; eexists; reflexivity. Qed.

Lemma at_sign (buf : list Z) (i : Z) :
  Forall is_sign buf -> 0 <= i < Z.of_nat (List.length buf) ->
  is_sign (at_ buf i).
Proof.
  intros HF Hi; unfold at_.
  rewrite Forall_forall in HF; apply HF, nth_In; lia.
Qed.

Lemma act_success_ok (c : config) (S E buf : list Z) (pos : Z) (task : Task)
    (events : list event) :
  List.length E = 6%nat ->
  let L := left pos in
  let R := right pos in
  let E2 := put E L (Z.max (at_ E L) (Hshadow c)) in
  let E3 := put E2 R (Z.max (at_ E2 R) (Hshadow c)) in
  let E4 := put E3 (IDX "C") 0 in
  let ttl := t_TTL task - 1 in
  act_success c S E buf pos L R task events
  = Ok (mkState S E4 buf pos
          (mkTask (if ttl >? 0 then t_P task else 0)
             (if ttl >? 0 then 1 else 0) ttl 0
             (t_DIR task) (t_K task) (t_H task) (t_PARK task)),
        Moved (events ++ [ACT_MIRROR; TTL_TO ttl]
                      ++ [if ttl >? 0 then RE_ARM else DONE])).
Proof.
  intros HE L R E2 E3 E4 ttl; unfold act_success.
  pose proof (left_range pos); pose proof (right_range pos).
  rewrite getitem_in_range by (rewrite HE; fold L; lia); cbn [bind].
  rewrite setitem_in_range by (rewrite HE; fold L; lia); cbn [bind].
  fold L E2.
  rewrite getitem_in_range by (unfold E2; rewrite put_length, HE; fold R; lia).
  cbn [bind].
  rewrite setitem_in_range by (unfold E2; rewrite put_length, HE; fold R; lia).
  cbn [bind]; fold R E3.
  rewrite setitem_in_range
    by (unfold E3, E2; rewrite !put_length, HE; vm_compute; split; congruence).
  cbn [bind]; fold E4 ttl.
  destruct (ttl >? 0); rewrite <- app_assoc; reflexivity.
Qed.

Lemma act_fail_ok (c : config) (S E buf : list Z) (pos : Z) (task : Task)
    (events : list event) :
  List.length E = 6%nat -> List.length buf = 6%nat ->
  let eC := Z.min (at_ E (IDX "C") + 1) (Emax c) in
  let bC := at_ buf (IDX "C") * -1 in
  let dir := reverse_dir (t_DIR task) in
  let fc := t_FAILCOUNT task + 1 in
  let evs := events ++ [HESITATE eC] ++ [REV_DIR dir; FAIL_TO fc] in
  act_fail c S E buf pos task events
  = if fc >=? t_K task then
      ch <- s_char bC ;;
      Ok (mkState S (put E (IDX "C") eC) (put buf (IDX "C") bC) pos
            (mkTask (t_P task) (t_D task) (t_TTL task) 0 dir (t_K task)
               (t_H task) (t_H task)),
          Moved (evs ++ [ESCALATE (t_H task) ch]))
    else
      Ok (mkState S (put E (IDX "C") eC) buf pos
            (mkTask (t_P task) (t_D task) (t_TTL task) fc dir (t_K task)
               (t_H task) (t_PARK task)),
          Moved evs).
Proof.
  intros HE Hb eC bC dir fc evs; unfold act_fail.
  assert (HC : 0 <= IDX "C" < 6) by (vm_compute; split; congruence).
  rewrite getitem_in_range by (rewrite HE; lia); cbn [bind].
  rewrite setitem_in_range by (rewrite HE; lia); cbn [bind].
  rewrite getitem_in_range by (rewrite put_length, HE; lia); cbn [bind].
  rewrite at_put_same by (rewrite HE; lia).
  fold eC fc; unfold evs, dir, reverse_dir.
  destruct (fc >=? t_K task).
  - rewrite getitem_in_range by (rewrite Hb; lia); cbn [bind].
    rewrite setitem_in_range by (rewrite Hb; lia); cbn [bind].
    rewrite getitem_in_range by (rewrite put_length, Hb; lia); cbn [bind].
    rewrite at_put_same by (rewrite Hb; lia).
    fold bC; destruct (s_char bC); cbn [bind]; [|reflexivity].
    rewrite <- !app_assoc; reflexivity.
  - rewrite <- !app_assoc; reflexivity.
Qed.

(** ** A tick never raises on well-formed data, and takes one branch *)

Theorem tick_total (c : config) (s : state) :
  well_formed s ->
  exists s' r, tick c s = Ok (s', r) /\ tick_spec c s s' r.
Proof.
  intros [HS HE Hb Hp Hsg]; unfold tick.
  rewrite decay_shadows_ok by assumption; cbn [bind].
  destruct (Z.gtb_spec (t_PARK (st_task s)) 0) as [Hpark|Hpark].
  { do 2 eexists; split; [reflexivity|apply TS_park; lia]. }
  rewrite move_baton_ok by assumption; cbn [bind fst snd].
  change ((step_baton (st_baton_pos s) (t_DIR (st_task s)) =? IDX "C")
          && ((prev_value (st_S s) (st_baton_pos s) (t_DIR (st_task s)) =? 1)
              || (prev_value (st_S s) (st_baton_pos s) (t_DIR (st_task s))
                  =? -1))
          && (t_P (st_task s) =? 1)) with (arrives s).
  destruct (arrives s) eqn:Harr.
  2:{ do 2 eexists; split; [reflexivity|apply TS_pass; assumption]. }
  destruct (Z.eqb_spec (t_D (st_task s)) 1) as [HD|HD].
  { do 2 eexists; split; [reflexivity|apply TS_jump; assumption]. }
  rewrite !boundary_ok by (rewrite ?acquired_length; assumption).
  cbn [bind].
  set (S' := acquired (st_S s) (st_baton_pos s) (t_DIR (st_task s))).
  set (new := step_baton (st_baton_pos s) (t_DIR (st_task s))).
  destruct (boundary_value S' (st_buf s) (left new)
            && boundary_value S' (st_buf s) (right new)) eqn:Hand.
  - destruct (andb_prop _ _ Hand) as [Hlb Hrb]; rewrite Hlb, Hrb.
    rewrite act_success_ok by (rewrite decayed_length; assumption).
    do 2 eexists; split; [reflexivity|].
    apply (TS_success c s); assumption.
  - rewrite act_fail_ok by (rewrite ?decayed_length; assumption).
    destruct (Z.geb_spec (t_FAILCOUNT (st_task s) + 1) (t_K (st_task s)))
      as [HK|HK].
    + destruct (s_char_sign (at_ (st_buf s) (IDX "C"))) as [ch Hch].
      { apply at_sign; [assumption|].
        rewrite Hb; vm_compute; split; congruence. }
      rewrite Hch; cbn [bind].
      do 2 eexists; split; [reflexivity|].
      apply (TS_escalate c s); try assumption; lia.
    + do 2 eexists; split; [reflexivity|].
      apply (TS_fail c s); try assumption; lia.
Qed.

Lemma put_signs (buf : list Z) (i v : Z) :
  Forall is_sign buf -> is_sign v -> Forall is_sign (put buf i v).
Proof.
  unfold put; generalize (Z.to_nat i) as n.
  induction buf as [|x r IH]; intros [|n] HF Hv; simpl; auto;
    inversion HF; subst; constructor; auto.
Qed.

Lemma tick_spec_well_formed (c : config) (s s' : state) (r : report) :
  well_formed s -> tick_spec c s s' r -> well_formed s'.
Proof.
  intros [HS HE Hb Hp Hsg] Hstep.
  pose proof (step_baton_range (st_baton_pos s) (t_DIR (st_task s))).
  inversion Hstep; subst;
    repeat match goal with x := _ |- _ => subst x end;
    constructor; cbn [st_S st_E st_buf st_baton_pos];
    rewrite ?put_length, ?acquired_length, ?decayed_length; auto.
  apply put_signs; [assumption|].
  assert (Hs : is_sign (at_ (st_buf s) (IDX "C")))
    by (apply at_sign; [assumption|rewrite Hb; vm_compute; split; congruence]).
  destruct Hs as [->| ->]; [right|left]; reflexivity.
Qed.

Lemma tick_inv (c : config) (s s' : state) (r : report) :
  well_formed s -> tick c s = Ok (s', r) -> tick_spec c s s' r.
Proof.
  intros Hwf Ht.
  destruct (tick_total c s Hwf) as (s1 & r1 & Ht1 & Hsp).
  rewrite Ht in Ht1; injection Ht1 as -> ->; exact Hsp.
Qed.

Lemma arrives_true (s : state) :
  arrives s = true ->
  step_baton (st_baton_pos s) (t_DIR (st_task s)) = IDX "C" /\
  is_sign (prev_value (st_S s) (st_baton_pos s) (t_DIR (st_task s))) /\
  t_P (st_task s) = 1.
Proof.
  unfold arrives, is_sign; intros H.
  apply andb_prop in H as [H HP]; apply andb_prop in H as [Hn Hpv].
  apply Z.eqb_eq in Hn, HP; apply orb_prop in Hpv.
  rewrite !Z.eqb_eq in Hpv; auto.
Qed.

(** ** Runs: a property kept by every branch holds along the whole run *)

Section RunInvariant.

Variable c : config.
Variable I : state -> Prop.
Hypothesis I_wf : forall s, I s -> well_formed s.
Hypothesis I_step : forall s s' r, I s -> tick_spec c s s' r -> I s'.

Lemma run_preserves (n : nat) :
  forall s, I s ->
  exists tr, run c n s = Ok tr /\ List.length tr = n /\
             Forall (fun sr => I (fst sr)) tr.
Proof.
  induction n as [|n IH]; intros s Hs; simpl.
  - exists []; auto.
  - destruct (tick_total c s (I_wf s Hs)) as (s1 & r1 & Ht & Hsp).
    rewrite Ht; cbn [bind fst].
    destruct (IH s1 (I_step s s1 r1 Hs Hsp)) as (tr & Hr & Hlen & Hall).
    rewrite Hr; cbn [bind].
    exists ((s1, r1) :: tr); repeat split; simpl; auto.
    constructor; eauto.
Qed.

(** The same, with a property of every report. *)
Variable J : report -> Prop.
Hypothesis J_step : forall s s' r, I s -> tick_spec c s s' r -> J r.

Lemma run_reports (n : nat) :
  forall s tr, I s -> run c n s = Ok tr -> Forall (fun sr => J (snd sr)) tr.
Proof.
  induction n as [|n IH]; intros s tr Hs Hrun; cbn [run] in Hrun.
  - injection Hrun as <-; constructor.
  - destruct (tick_total c s (I_wf s Hs)) as (s1 & r1 & Ht & Hsp).
    rewrite Ht in Hrun; cbn [bind fst] in Hrun.
    destruct (run c n s1) as [tr1|e] eqn:Hr1; [|discriminate].
    cbn [bind] in Hrun; injection Hrun as <-.
    constructor; [exact (J_step s s1 r1 Hs Hsp)|].
    exact (IH s1 tr1 (I_step s s1 r1 Hs Hsp) Hr1).
Qed.

End RunInvariant.

(** ** The shape of the states of a run *)

Lemma domains_value : domains = [1; 1; 1; -1; -1; -1].
Proof. reflexivity. Qed.

Lemma acquired_ring (pos : Z) (d : string) :
  0 <= pos < 6 ->
  acquired (put domains pos 0) pos d = put domains (step_baton pos d) 0.
Proof.
  intros Hp; unfold step_baton.
  destruct (String.eqb d "CW") eqn:Hd;
    destruct (ring_cases pos Hp) as [->|[->|[->|[->|[->| ->]]]]];
    unfold acquired, released, step_baton; rewrite Hd; reflexivity.
Qed.

Lemma prev_ring (pos : Z) (d : string) :
  0 <= pos < 6 ->
  prev_value (put domains pos 0) pos d = domain_sign (step_baton pos d).
Proof.
  intros Hp; unfold prev_value, released, step_baton.
  destruct (String.eqb d "CW");
    destruct (ring_cases pos Hp) as [->|[->|[->|[->|[->| ->]]]]];
    reflexivity.
Qed.

Lemma domain_sign_is_sign (i : Z) : is_sign (domain_sign i).
Proof.
  unfold domain_sign, is_sign.
  destruct ((i =? IDX "A") || (i =? IDX "B") || (i =? IDX "C")); auto.
Qed.

Lemma run_shape_well_formed (s : state) : run_shape s -> well_formed s.
Proof.
  intros [Hp HS HE (b & Hb & Hbuf) _ _].
  constructor; auto.
  - rewrite HS, put_length; reflexivity.
  - rewrite Hbuf, put_length; reflexivity.
  - rewrite Hbuf; apply put_signs; [|assumption].
    rewrite domains_value.
    repeat (apply Forall_cons; [unfold is_sign; auto|]); apply Forall_nil.
Qed.

Lemma run_shape_step (c : config) (s s' : state) (r : report) :
  run_shape s -> tick_spec c s s' r -> run_shape s'.
Proof.
  intros Hsh Hstep.
  pose proof (acquired_ring (st_baton_pos s) (t_DIR (st_task s))
                (sh_pos s Hsh)) as Hacq.
  rewrite <- (sh_S s Hsh) in Hacq.
  pose proof (step_baton_range (st_baton_pos s) (t_DIR (st_task s))).
  destruct Hsh as [Hp HS HE (b & Hb & Hbuf) HK HH].
  inversion Hstep; subst;
    repeat match goal with x := _ |- _ => subst x end;
    constructor; cbn [st_S st_E st_buf st_baton_pos st_task t_K t_H];
    rewrite ?put_length, ?decayed_length; eauto.
  exists (b * -1); split.
  - destruct Hb as [->| ->]; [right|left]; reflexivity.
  - rewrite Hbuf; destruct Hb as [->| ->]; reflexivity.
Qed.

Lemma initial_state_shape (TTL : Z) :
  exists s0, initial_state TTL = Ok s0 /\ run_shape s0 /\
             st_E s0 = [0; 0; 0; 0; 0; 0] /\ st_task s0 = new_Task TTL.
Proof.
  eexists; split; [reflexivity|]; split; [|split; reflexivity].
  constructor; cbn; try reflexivity; try lia.
  exists 1; split; [left|]; reflexivity.
Qed.

(** In a run the two boundary tests never hold together: the test around B
    needs [buf[C] = -1], the one around D needs [buf[C] = +1]. *)
Lemma run_shape_no_success (s : state) :
  run_shape s -> arrives s = true ->
  let S' := acquired (st_S s) (st_baton_pos s) (t_DIR (st_task s)) in
  let new := step_baton (st_baton_pos s) (t_DIR (st_task s)) in
  boundary_value S' (st_buf s) (left new)
  && boundary_value S' (st_buf s) (right new) = false.
Proof.
  intros [Hp HS HE (b & Hb & Hbuf) _ _] Harr S' new.
  destruct (arrives_true s Harr) as (Hnew & _ & _).
  unfold S', new; rewrite HS, acquired_ring, Hnew, Hbuf by assumption.
  destruct Hb as [->| ->]; reflexivity.
Qed.

(** Every run of [simulate] completes, tick after tick, within
    [run_shape]. *)
Lemma simulate_shape (steps Hshadow Emax TTL : Z) :
  exists s0 tr,
    simulate steps Hshadow Emax TTL = Ok (s0, tr) /\
    List.length tr = Z.to_nat steps /\
    st_task s0 = new_Task TTL /\ st_E s0 = [0; 0; 0; 0; 0; 0] /\
    run_shape s0 /\ Forall (fun sr => run_shape (fst sr)) tr.
Proof.
  destruct (initial_state_shape TTL) as (s0 & H0 & Hsh & HE0 & Ht0).
  destruct (run_preserves (mkConfig Hshadow Emax) run_shape
              run_shape_well_formed
              (run_shape_step (mkConfig Hshadow Emax))
              (Z.to_nat steps) s0 Hsh) as (tr & Hr & Hlen & Hall).
  exists s0, tr; unfold simulate; rewrite H0; cbn [bind]; rewrite Hr.
  exact (conj eq_refl (conj Hlen (conj Ht0 (conj HE0 (conj Hsh Hall))))).
Qed.

(** No run of [simulate] ever reports the mirror: every ACT attempt of a
    run fails, whatever the configuration. *)
Lemma simulate_never_mirrors (steps Hshadow Emax TTL : Z) :
  exists s0 tr,
    simulate steps Hshadow Emax TTL = Ok (s0, tr) /\
    Forall (fun sr => ~ In ACT_MIRROR (events_of (snd sr))) tr.
Proof.
  destruct (simulate_shape steps Hshadow Emax TTL)
    as (s0 & tr & Hsim & _ & _ & _ & H0 & _).
  exists s0, tr; split; [exact Hsim|].
  unfold simulate in Hsim.
  destruct (initial_state TTL) as [s0'|e]; [|discriminate].
  cbn [bind] in Hsim.
  destruct (run (mkConfig Hshadow Emax) (Z.to_nat steps) s0')
    as [tr'|e] eqn:Hr; [|discriminate].
  cbn [bind] in Hsim; injection Hsim as -> ->.
  apply (run_reports (mkConfig Hshadow Emax) run_shape
           run_shape_well_formed (run_shape_step (mkConfig Hshadow Emax))
           (fun r => ~ In ACT_MIRROR (events_of r)))
    with (n := Z.to_nat steps) (s := s0); [|assumption|assumption].
  intros s s' r Hs Hsp.
  inversion Hsp as [ | | | Hpk Harr HD Hlb Hrb | | ]; subst;
    repeat match goal with x := _ |- _ => subst x end;
    cbn [events_of In]; try (intuition discriminate).
  pose proof (run_shape_no_success s Hs Harr) as Hno; cbv zeta in Hno.
  rewrite Hlb, Hrb in Hno; discriminate.
Qed.

Lemma run_shape_single_baton (s : state) : run_shape s -> single_baton s.
Proof.
  intros [Hp HS _ _ _ _]; unfold single_baton.
  rewrite HS, put_length; repeat split; try lia.
  intros i Hi; unfold is_sign.
  destruct (ring_cases _ Hp) as [->|[->|[->|[->|[->| ->]]]]];
    destruct (ring_cases _ Hi) as [->|[->|[->|[->|[->| ->]]]]];
    vm_compute; solve [left; split; congruence
                      | right; split; [congruence|auto]].
Qed.

Lemma run_shape_released (s : state) : run_shape s -> released_at_domain s.
Proof.
  intros [Hp HS _ _ _ _] i Hi Hne; rewrite HS.
  rewrite at_put_other by lia.
  destruct (ring_cases _ Hi) as [->|[->|[->|[->|[->| ->]]]]]; reflexivity.
Qed.

Lemma run_shape_guard (s : state) : run_shape s -> guard_transparent s.
Proof.
  intros [Hp HS _ _ _ _]; unfold guard_transparent, arrives.
  rewrite HS, prev_ring by assumption.
  pose proof (domain_sign_is_sign
                (step_baton (st_baton_pos s) (t_DIR (st_task s)))) as Hs.
  split; [exact Hs|].
  destruct Hs as [->| ->]; cbn [Z.eqb orb]; rewrite andb_true_r; reflexivity.
Qed.

(** ** Claims on whole runs *)

(** The first ticks of the default run: tick 1 moves the baton from A to B
    and reports nothing; tick 2 arrives at C and jumps, which lowers [D]
    and leaves [TTL] at 3. *)
Example default_run_first_ticks :
  exists s1 s2,
    run (mkConfig default_Hshadow default_Emax) 2 default_start
    = Ok [(s1, Moved []); (s2, Moved [ARRIVE_C; JUMP])] /\
    st_baton_pos s1 = IDX "B" /\ st_baton_pos s2 = IDX "C" /\
    st_S s2 = [1; 1; 0; -1; -1; -1] /\
    t_D (st_task s2) = 0 /\ t_TTL (st_task s2) = 3.
Proof. do 2 eexists; split; [vm_compute; reflexivity|repeat split]. Qed.

(** C1. Single-baton invariant: [simulate] completes for every
    configuration, and in its initial state and in the snapshot after every
    tick exactly one of the 6 tiles, the one at the baton position, holds
    the committed value 0, every other tile holding +1 or -1. *)
Theorem single_baton_invariant (steps Hshadow Emax TTL : Z) :
  exists s0 tr,
    simulate steps Hshadow Emax TTL = Ok (s0, tr) /\
    List.length tr = Z.to_nat steps /\
    single_baton s0 /\
    Forall (fun sr => single_baton (fst sr)) tr.
Proof.
  destruct (simulate_shape steps Hshadow Emax TTL)
    as (s0 & tr & Hsim & Hlen & _ & _ & H0 & Hall).
  exists s0, tr; repeat (split; [assumption|]).
  split; [apply run_shape_single_baton; assumption|].
  eapply Forall_impl; [|exact Hall].
  intros sr; apply run_shape_single_baton.
Qed.

Lemma run_shape_guard_on_code (c : config) (s : state) :
  run_shape s -> guard_never_suppresses c s.
Proof.
  intros Hsh.
  pose proof (run_shape_well_formed s Hsh) as Hwf.
  destruct (run_shape_guard s Hsh) as [Hprev Harr].
  exists (acquired (st_S s) (st_baton_pos s) (t_DIR (st_task s))),
         (step_baton (st_baton_pos s) (t_DIR (st_task s))),
         (prev_value (st_S s) (st_baton_pos s) (t_DIR (st_task s))).
  split; [apply move_baton_ok; [apply (wf_S s Hwf)|apply (wf_pos s Hwf)]|].
  split; [exact Hprev|].
  intros Hpark.
  destruct (tick_total c s Hwf) as (s' & r & Ht & Hsp).
  inversion Hsp as [ Hpk | Hpk Hno | Hpk Hyes HD | Hpk Hyes HD Hlb Hrb
                   | Hpk Hyes HD Hlb | Hpk Hyes HD Hlb ]; subst;
    repeat match goal with x := _ |- _ => subst x end;
    try lia;
    do 2 eexists; (split; [exact Ht|]);
    (split; [reflexivity|]); (split; [reflexivity|]).
  - (* no arrival reported: the destination is not C, or the task is off *)
    rewrite Hno in Harr; symmetry in Harr.
    split; [intros []|].
    intros [HC HP]; rewrite HC, HP in Harr; discriminate.
  - destruct (arrives_true s Hyes) as (HC & _ & HP).
    split; [intros _; split; assumption|intros _; simpl; auto].
  - destruct (arrives_true s Hyes) as (HC & _ & HP).
    split; [intros _; split; assumption|intros _; simpl; auto].
  - destruct (arrives_true s Hyes) as (HC & _ & HP).
    split; [intros _; split; assumption|intros _; simpl; auto].
  - destruct (arrives_true s Hyes) as (HC & _ & HP).
    split; [intros _; split; assumption|intros _; simpl; auto].
Qed.

(** C10. In the initial state and in every snapshot of a run, every tile
    other than the baton's holds exactly its domain sign, so the value
    [prev] that [move_baton] reads at the destination of the next move is
    +1 or -1, and the tick that makes the move reports ARRIVE_C exactly
    when that destination is C and the task is active: the [prev] guard
    of line 175 never suppresses an arrival. *)
Theorem released_tiles_hold_domain_sign (steps Hshadow Emax TTL : Z) :
  exists s0 tr,
    simulate steps Hshadow Emax TTL = Ok (s0, tr) /\
    List.length tr = Z.to_nat steps /\
    Forall (fun s => released_at_domain s /\ guard_transparent s /\
                     guard_never_suppresses (mkConfig Hshadow Emax) s)
           (s0 :: map fst tr).
Proof.
  destruct (simulate_shape steps Hshadow Emax TTL)
    as (s0 & tr & Hsim & Hlen & _ & _ & H0 & Hall).
  assert (Hone : forall s, run_shape s ->
            released_at_domain s /\ guard_transparent s /\
            guard_never_suppresses (mkConfig Hshadow Emax) s).
  { intros s Hs; split; [apply run_shape_released, Hs|].
    split; [apply run_shape_guard, Hs|apply run_shape_guard_on_code, Hs]. }
  exists s0, tr; repeat (split; [assumption|]).
  constructor; [apply Hone, H0|].
  rewrite Forall_map; eapply Forall_impl; [|exact Hall].
  intros sr Hsr; apply Hone, Hsr.
Qed.

(** C9, as the code has it.  [simulate] validates nothing: for all integers
    [steps], [Hshadow], [Emax] and [TTL], negative ones included, the
    initial state is built and exactly [max(steps, 0)] ticks run without an
    exception; the threshold, the park duration and the direction are not
    parameters and start at 3, 2 and CW. *)
Theorem simulate_never_rejects (steps Hshadow Emax TTL : Z) :
  exists s0 tr,
    simulate steps Hshadow Emax TTL = Ok (s0, tr) /\
    List.length tr = Z.to_nat (Z.max steps 0) /\
    st_task s0 = mkTask 1 1 TTL 0 "CW" 3 2 0 /\
    (default_steps, default_Hshadow, default_Emax, default_TTL)
    = (80, 3, 6, 3).
Proof.
  destruct (simulate_shape steps Hshadow Emax TTL)
    as (s0 & tr & Hsim & Hlen & Ht & _).
  exists s0, tr; repeat split; try assumption.
  rewrite Hlen; lia.
Qed.

(** C9, as stated, fails: a tick count of 0 and negative [Hshadow], [Emax]
    and [TTL] are accepted, and with a negative configuration the loop
    runs. *)
Lemma config_is_not_validated :
  (forall e, simulate 0 (-3) (-6) (-3) <> Raise e) /\
  (exists s0, simulate (-5) 3 6 3 = Ok (s0, [])) /\
  (exists s0 tr, simulate 5 (-3) (-6) (-3) = Ok (s0, tr) /\
                 List.length tr = 5%nat).
Proof.
  split; [intros e; vm_compute; discriminate|].
  split; [eexists; vm_compute; reflexivity|].
  do 2 eexists; split; [vm_compute; reflexivity|reflexivity].
Qed.

(** ** Shadow levels *)

Lemma dec_bounds (e m : Z) : 0 <= e <= m -> 0 <= dec e <= m.
Proof. unfold dec; destruct (Z.gtb_spec e 0); lia. Qed.

Lemma levels_decayed (m : Z) (E : list Z) :
  levels_in m E -> levels_in m (decayed E).
Proof.
  intros [HE Hb]; split; [rewrite decayed_length; exact HE|].
  intros i Hi; rewrite at_decayed; apply dec_bounds, Hb, Hi.
Qed.

Lemma levels_put (m : Z) (E : list Z) (j v : Z) :
  levels_in m E -> 0 <= j < 6 -> 0 <= v <= m -> levels_in m (put E j v).
Proof.
  intros [HE Hb] Hj Hv; split; [rewrite put_length; exact HE|].
  intros i Hi; destruct (Z.eq_dec j i) as [->|Hne].
  - rewrite at_put_same by (rewrite HE; lia); exact Hv.
  - rewrite at_put_other by lia; apply Hb, Hi.
Qed.

(** A tick keeps the levels in [0, Emax] as soon as the cap is not
    negative and the latch, if it can fire, has its floor within the cap. *)
Lemma tick_spec_shadow_bounded (c : config) (s s' : state) (r : report) :
  0 <= Emax c ->
  Hshadow c <= Emax c \/
  (arrives s = true ->
   let S' := acquired (st_S s) (st_baton_pos s) (t_DIR (st_task s)) in
   let new := step_baton (st_baton_pos s) (t_DIR (st_task s)) in
   boundary_value S' (st_buf s) (left new)
   && boundary_value S' (st_buf s) (right new) = false) ->
  shadow_bounded (Emax c) s -> tick_spec c s s' r ->
  shadow_bounded (Emax c) s'.
Proof.
  intros Hcap Hlatch Hb Hstep; unfold shadow_bounded in *.
  pose proof (levels_decayed _ _ Hb) as Hd.
  assert (HC : 0 <= IDX "C" < 6) by (vm_compute; split; congruence).
  pose proof (proj2 Hd (IDX "C") HC) as HdC.
  pose proof (left_range (step_baton (st_baton_pos s)
                            (t_DIR (st_task s)))) as HL.
  pose proof (right_range (step_baton (st_baton_pos s)
                             (t_DIR (st_task s)))) as HR.
  inversion Hstep as [ | | | Hpk Harr HD Hlb Hrb | | ]; subst;
    repeat match goal with x := _ |- _ => subst x end;
    cbn [st_E]; try assumption;
    try (apply levels_put; [assumption|assumption|lia]).
  destruct Hlatch as [Hfloor|Hno].
  2:{ specialize (Hno Harr); cbv zeta in Hno.
      rewrite Hlb, Hrb in Hno; discriminate. }
  apply levels_put; [|assumption|lia].
  set (L := left (step_baton (st_baton_pos s) (t_DIR (st_task s)))) in *.
  set (R := right (step_baton (st_baton_pos s) (t_DIR (st_task s)))) in *.
  assert (Hmid : levels_in (Emax c)
                   (put (decayed (st_E s)) L
                      (Z.max (at_ (decayed (st_E s)) L) (Hshadow c)))).
  { apply levels_put; [assumption|assumption|].
    pose proof (proj2 Hd _ HL); lia. }
  apply levels_put; [assumption|assumption|].
  pose proof (proj2 Hmid _ HR); lia.
Qed.

(** C4, as the code has it.  Provided [Emax] is not negative, [simulate]
    completes and in its initial state and after every tick every shadow
    level satisfies [0 <= E[i] <= Emax]; and on any well-formed state within
    the bound a tick stays within it (decay stops at 0, hesitation is
    capped at [Emax]) as long as the latch floor [Hshadow] does not exceed
    [Emax]. *)
Theorem shadow_levels_within_cap (steps Hshadow Emax TTL : Z) :
  0 <= Emax ->
  (exists s0 tr,
     simulate steps Hshadow Emax TTL = Ok (s0, tr) /\
     List.length tr = Z.to_nat steps /\
     shadow_bounded Emax s0 /\
     Forall (fun sr => shadow_bounded Emax (fst sr)) tr) /\
  (Hshadow <= Emax ->
   forall s, well_formed s -> shadow_bounded Emax s ->
   exists s' r, tick (mkConfig Hshadow Emax) s = Ok (s', r) /\
                shadow_bounded Emax s').
Proof.
  intros Hcap; set (c := mkConfig Hshadow Emax); split.
  - pose (I := fun s => run_shape s /\ shadow_bounded Emax s).
    destruct (initial_state_shape TTL) as (s0 & H0 & Hsh & HE0 & _).
    assert (HI0 : I s0).
    { split; [assumption|]; split; [rewrite HE0; reflexivity|].
      intros i Hi; rewrite HE0.
      destruct (ring_cases _ Hi) as [->|[->|[->|[->|[->| ->]]]]];
        unfold at_; simpl; lia. }
    assert (Hwf : forall s, I s -> well_formed s)
      by (intros s [Hs _]; apply run_shape_well_formed, Hs).
    assert (Hstep : forall s s' r, I s -> tick_spec c s s' r -> I s').
    { intros s s' r [Hs Hb] Hsp; split.
      - eapply run_shape_step; eassumption.
      - apply (tick_spec_shadow_bounded c s s' r); auto.
        right; intros Harr; apply run_shape_no_success; assumption. }
    destruct (run_preserves c I Hwf Hstep (Z.to_nat steps) s0 HI0)
      as (tr & Hr & Hlen & Hall).
    exists s0, tr; unfold simulate; rewrite H0; cbn [bind]; fold c.
    rewrite Hr; cbn [bind].
    split; [reflexivity|]; split; [assumption|]; split; [apply HI0|].
    eapply Forall_impl; [|exact Hall]; intros sr Hsr; apply Hsr.
  - intros Hfloor s Hwf Hb.
    destruct (tick_total c s Hwf) as (s' & r & Ht & Hsp).
    exists s', r; split; [assumption|].
    apply (tick_spec_shadow_bounded c s s' r); auto.
Qed.

(** C4, as stated, fails for a negative cap, which [simulate] accepts: with
    [Emax = -1] the first failed ACT attempt, at tick 8, leaves
    [E[C] = min(0 + 1, -1) = -1]. *)
Lemma negative_cap_breaks_shadow_bound :
  exists s0 tr,
    simulate 8 3 (-1) 3 = Ok (s0, tr) /\
    at_ (st_E (final s0 tr)) (IDX "C") = -1 /\
    ~ shadow_bounded (-1) (final s0 tr).
Proof.
  do 2 eexists; split; [vm_compute; reflexivity|].
  split; [reflexivity|].
  intros [_ Hb]; specialize (Hb 2); vm_compute in Hb.
  destruct Hb as [Hb _]; [split; congruence|]. apply Hb; reflexivity.
Qed.

(** The latch itself ignores the cap: with a floor above [Emax] a success
    raises the neighbours of C beyond it. *)
Example latch_ignores_cap :
  shadow_bounded 6 (mirror_state 3 0) /\
  exists s' r,
    tick (mkConfig 10 6) (mirror_state 3 0) = Ok (s', r) /\
    st_E s' = [0; 10; 0; 10; 0; 0].
Proof.
  split.
  - split; [reflexivity|].
    intros i Hi.
    destruct (ring_cases _ Hi) as [->|[->|[->|[->|[->| ->]]]]];
      unfold at_; simpl; lia.
  - do 2 eexists; split; [vm_compute; reflexivity|reflexivity].
Qed.

Lemma shadow_levels_within_cap_witness :
  0 <= 6 /\
  ((exists s0 tr,
      simulate 80 3 6 3 = Ok (s0, tr) /\
      List.length tr = Z.to_nat 80 /\
      shadow_bounded 6 s0 /\
      Forall (fun sr => shadow_bounded 6 (fst sr)) tr) /\
   (3 <= 6 ->
    forall s, well_formed s -> shadow_bounded 6 s ->
    exists s' r, tick (mkConfig 3 6) s = Ok (s', r) /\
                 shadow_bounded 6 s')).
Proof.
  split; [lia|apply (shadow_levels_within_cap 80 3 6 3); lia].
Defined.

(** ** Claims on a single tick *)

Lemma parked_state_wf : well_formed parked_state.
Proof.
  constructor; cbn; try reflexivity; try lia.
  repeat (apply Forall_cons; [unfold is_sign; auto|]); apply Forall_nil.
Defined.

Lemma mirror_state_wf (ttl failcount : Z) :
  well_formed (mirror_state ttl failcount).
Proof.
  constructor; cbn; try reflexivity; try lia.
  repeat (apply Forall_cons; [unfold is_sign; auto|]); apply Forall_nil.
Defined.

Lemma mirror_state_attempt (ttl failcount : Z) :
  act_attempt (mirror_state ttl failcount).
Proof. repeat split; cbn; try lia; discriminate. Defined.

(** C5. Park semantics: on a tick that begins with [PARK > 0] the shadows
    decay first, [PARK] decreases by exactly 1 and the tick stops: baton
    position, direction, [S] and [buf] (and the rest of the task) are
    unchanged and the report is the PARK marker, with no event at all. *)
Theorem park_tick_frame (c : config) (s : state) :
  well_formed s -> t_PARK (st_task s) > 0 ->
  exists s',
    tick c s = Ok (s', Parked) /\
    st_E s' = decayed (st_E s) /\
    (forall i, at_ (st_E s') i = dec (at_ (st_E s) i)) /\
    t_PARK (st_task s') = t_PARK (st_task s) - 1 /\
    st_baton_pos s' = st_baton_pos s /\
    t_DIR (st_task s') = t_DIR (st_task s) /\
    st_S s' = st_S s /\
    st_buf s' = st_buf s /\
    (t_P (st_task s'), t_D (st_task s'), t_TTL (st_task s'),
     t_FAILCOUNT (st_task s'), t_K (st_task s'), t_H (st_task s'))
    = (t_P (st_task s), t_D (st_task s), t_TTL (st_task s),
       t_FAILCOUNT (st_task s), t_K (st_task s), t_H (st_task s)) /\
    count_ev is_ARRIVE_C (events_of Parked) = 0%nat.
Proof.
  intros Hwf Hpark.
  destruct (tick_total c s Hwf) as (s' & r & Ht & Hsp).
  tick_branches Hsp.
  eexists; split; [exact Ht|]; cbn.
  repeat split; try reflexivity.
  intros i; apply at_decayed.
Qed.

Lemma park_tick_frame_witness :
  exists s',
    tick (mkConfig 3 6) parked_state = Ok (s', Parked) /\
    st_E s' = [0; 0; 2; 0; 0; 0] /\
    t_PARK (st_task s') = 1 /\
    st_baton_pos s' = 2.
Proof.
  destruct (park_tick_frame (mkConfig 3 6) parked_state parked_state_wf)
    as (s' & Ht & HE & _ & HP & Hpos & _); [cbn; lia|].
  exists s'; repeat split; assumption.
Defined.

(** C6. Act-success postcondition: when an ACT attempt is made and both
    boundary tests hold, the tick reports the mirror and afterwards
    [E[C] = 0], [E[left(C)]] and [E[right(C)]] are at least [Hshadow] (each
    is the maximum of its decayed level and [Hshadow], not a sum) and
    [FAILCOUNT = 0], whatever [E] and [FAILCOUNT] were before. *)
Theorem act_success_postcondition (c : config) (s : state) :
  well_formed s -> act_attempt s -> lb_of s = true -> rb_of s = true ->
  exists s' evs,
    tick c s = Ok (s', Moved evs) /\
    In ACT_MIRROR evs /\
    at_ (st_E s') (IDX "C") = 0 /\
    at_ (st_E s') (left (IDX "C")) >= Hshadow c /\
    at_ (st_E s') (right (IDX "C")) >= Hshadow c /\
    at_ (st_E s') (left (IDX "C"))
    = Z.max (dec (at_ (st_E s) (left (IDX "C")))) (Hshadow c) /\
    at_ (st_E s') (right (IDX "C"))
    = Z.max (dec (at_ (st_E s) (right (IDX "C")))) (Hshadow c) /\
    t_FAILCOUNT (st_task s') = 0.
Proof.
  intros Hwf (Hpark & Harr & HD) Hlb Hrb.
  destruct (arrives_true s Harr) as (Hnew & _ & _).
  unfold lb_of, rb_of in Hlb, Hrb; rewrite <- Hnew in Hlb, Hrb.
  destruct (tick_total c s Hwf) as (s' & r & Ht & Hsp).
  tick_branches Hsp;
    try match goal with
        | H : _ && _ = false |- _ => rewrite Hlb, Hrb in H; discriminate
        end.
  do 2 eexists; split; [exact Ht|]; cbn [st_E st_task t_FAILCOUNT].
  rewrite !Hnew.
  pose proof (wf_E s Hwf) as HE.
  assert (Hlen : forall v, 0 <= v < 6 ->
            0 <= v < Z.of_nat (List.length (decayed (st_E s))))
    by (intros v Hv; rewrite decayed_length, HE; lia).
  assert (HL : left (IDX "C") = 1) by reflexivity.
  assert (HR : right (IDX "C") = 3) by reflexivity.
  assert (HC : IDX "C" = 2) by reflexivity.
  rewrite HL, HR, HC.
  assert (E1 : at_ (put (put (put (decayed (st_E s)) 1
                         (Z.max (at_ (decayed (st_E s)) 1) (Hshadow c))) 3
                       (Z.max (at_ (put (decayed (st_E s)) 1
                                      (Z.max (at_ (decayed (st_E s)) 1)
                                         (Hshadow c))) 3) (Hshadow c))) 2 0) 1
               = Z.max (dec (at_ (st_E s) 1)) (Hshadow c)).
  { rewrite !at_put_other by lia.
    rewrite at_put_same by (apply Hlen; lia).
    rewrite at_decayed; reflexivity. }
  assert (E3 : at_ (put (put (put (decayed (st_E s)) 1
                         (Z.max (at_ (decayed (st_E s)) 1) (Hshadow c))) 3
                       (Z.max (at_ (put (decayed (st_E s)) 1
                                      (Z.max (at_ (decayed (st_E s)) 1)
                                         (Hshadow c))) 3) (Hshadow c))) 2 0) 3
               = Z.max (dec (at_ (st_E s) 3)) (Hshadow c)).
  { rewrite at_put_other by lia.
    rewrite at_put_same by (rewrite put_length; apply Hlen; lia).
    rewrite at_put_other by lia.
    rewrite at_decayed; reflexivity. }
  rewrite E1, E3.
  split; [simpl; auto|].
  split; [apply at_put_same; rewrite !put_length; apply Hlen; lia|].
  repeat split; lia.
Qed.

Lemma act_success_postcondition_witness :
  exists s' evs,
    tick (mkConfig 3 6) (mirror_state 3 2) = Ok (s', Moved evs) /\
    at_ (st_E s') (IDX "C") = 0 /\
    at_ (st_E s') (left (IDX "C")) >= 3 /\
    at_ (st_E s') (right (IDX "C")) >= 3 /\
    t_FAILCOUNT (st_task s') = 0.
Proof.
  destruct (act_success_postcondition (mkConfig 3 6) (mirror_state 3 2)
              (mirror_state_wf 3 2) (mirror_state_attempt 3 2)
              eq_refl eq_refl)
    as (s' & evs & Ht & _ & HC & HL & HR & _ & _ & HF).
  exists s', evs; repeat split; assumption.
Defined.

Lemma acquired_at_new (S : list Z) (pos : Z) (d : string) :
  List.length S = 6%nat ->
  at_ (acquired S pos d) (step_baton pos d) = 0.
Proof.
  intros HS; unfold acquired; apply at_put_same.
  unfold released; rewrite put_length, HS.
  pose proof (step_baton_range pos d); lia.
Qed.

(** C2. The boundary test is two-hop.  [boundary_strict_effective(S, buf, i)]
    is [eff(left(i)) + eff(right(i)) == 0], where [eff(j)] is [buf[j]] when
    [S[j] == 0] and [S[j]] otherwise.  An ACT attempt evaluates it exactly
    twice, at [left(C) = B] and at [right(C) = D], on [S] as the move left
    it: the reported pair is [eff(A) + eff(C) == 0] and
    [eff(C) + eff(E) == 0], with [eff(C) = buf[C]] since the baton is on C,
    and the attempt succeeds exactly when both hold. *)
Theorem boundary_is_two_hop (c : config) (s : state) :
  well_formed s -> act_attempt s ->
  exists s' evs,
    tick c s = Ok (s', Moved evs) /\
    (forall j, 0 <= j < 6 ->
       eff (st_S s') (st_buf s) j
       = Ok (if at_ (st_S s') j =? 0 then at_ (st_buf s) j
             else at_ (st_S s') j)) /\
    (forall i,
       boundary_strict_effective (st_S s') (st_buf s) i
       = Ok (eff_value (st_S s') (st_buf s) (left i)
             + eff_value (st_S s') (st_buf s) (right i) =? 0)) /\
    left (IDX "C") = IDX "B" /\ right (IDX "C") = 3 /\
    filter is_BOUNDARY evs = [BOUNDARY (lb_of s) (rb_of s)] /\
    boundary_strict_effective (st_S s') (st_buf s) (IDX "B")
    = Ok (lb_of s) /\
    boundary_strict_effective (st_S s') (st_buf s) 3 = Ok (rb_of s) /\
    lb_of s = (eff_value (st_S s') (st_buf s) (IDX "A")
               + eff_value (st_S s') (st_buf s) (IDX "C") =? 0) /\
    rb_of s = (eff_value (st_S s') (st_buf s) (IDX "C")
               + eff_value (st_S s') (st_buf s) 4 =? 0) /\
    eff_value (st_S s') (st_buf s) (IDX "C") = at_ (st_buf s) (IDX "C") /\
    (In ACT_MIRROR evs <-> lb_of s && rb_of s = true).
Proof.
  intros Hwf (Hpark & Harr & HD).
  destruct (arrives_true s Harr) as (Hnew & _ & _).
  pose proof (wf_S s Hwf) as HS; pose proof (wf_buf s Hwf) as Hb.
  pose proof (acquired_at_new (st_S s) (st_baton_pos s)
                (t_DIR (st_task s)) HS) as H0.
  pose proof (acquired_length (st_S s) (st_baton_pos s)
                (t_DIR (st_task s))) as HS'.
  rewrite HS in HS'.
  destruct (tick_total c s Hwf) as (s' & r & Ht & Hsp).
  assert (Hcommon :
    forall S', S' = acquired (st_S s) (st_baton_pos s) (t_DIR (st_task s)) ->
    (forall j, 0 <= j < 6 ->
       eff S' (st_buf s) j
       = Ok (if at_ S' j =? 0 then at_ (st_buf s) j else at_ S' j)) /\
    (forall i,
       boundary_strict_effective S' (st_buf s) i
       = Ok (eff_value S' (st_buf s) (left i)
             + eff_value S' (st_buf s) (right i) =? 0)) /\
    boundary_strict_effective S' (st_buf s) (IDX "B") = Ok (lb_of s) /\
    boundary_strict_effective S' (st_buf s) 3 = Ok (rb_of s) /\
    lb_of s = (eff_value S' (st_buf s) (IDX "A")
               + eff_value S' (st_buf s) (IDX "C") =? 0) /\
    rb_of s = (eff_value S' (st_buf s) (IDX "C")
               + eff_value S' (st_buf s) 4 =? 0) /\
    eff_value S' (st_buf s) (IDX "C") = at_ (st_buf s) (IDX "C")).
  { intros S' ->.
    split; [intros j Hj; apply eff_ok; assumption|].
    split; [intros i; apply boundary_ok; assumption|].
    split; [apply boundary_ok; assumption|].
    split; [apply boundary_ok; assumption|].
    split; [reflexivity|]. split; [reflexivity|].
    unfold eff_value; rewrite <- Hnew, H0; reflexivity. }
  unfold lb_of, rb_of in *; rewrite <- Hnew in *.
  tick_branches Hsp;
    do 2 eexists; (split; [exact Ht|]); cbn [st_S];
    destruct (Hcommon _ eq_refl) as (C1 & C2 & C3 & C4 & C5 & C6 & C7);
    (split; [exact C1|]); (split; [exact C2|]);
    (split; [rewrite Hnew; reflexivity|]);
    (split; [rewrite Hnew; reflexivity|]);
    (split; [cbn [filter is_BOUNDARY]|]).
  all: try (split; [exact C3|]; split; [exact C4|]; split; [exact C5|];
            split; [exact C6|]; split; [exact C7|]).
  all: repeat match goal with
              | H : boundary_value _ _ _ = true |- _ => rewrite H in *
              | H : _ && _ = false |- _ => rewrite H in *
              end.
  all: try match goal with
           | |- context [if ?x >? 0 then RE_ARM else DONE] =>
               destruct (x >? 0)
           end;
    try reflexivity.
  all: try (split; [intros _; reflexivity|intros _; simpl; auto]).
  all: try (split; [simpl; intuition discriminate|discriminate]).
Qed.

Lemma attempt_state_wf (failcount : Z) : well_formed (attempt_state failcount).
Proof.
  constructor; cbn; try reflexivity; try lia.
  repeat (apply Forall_cons; [unfold is_sign; auto|]); apply Forall_nil.
Defined.

Lemma attempt_state_attempt (failcount : Z) :
  act_attempt (attempt_state failcount).
Proof. repeat split; cbn; try lia; discriminate. Defined.

Lemma boundary_is_two_hop_witness :
  exists s' evs,
    tick (mkConfig 3 6) (attempt_state 0) = Ok (s', Moved evs) /\
    filter is_BOUNDARY evs = [BOUNDARY false true] /\
    boundary_strict_effective (st_S s') (st_buf (attempt_state 0)) (IDX "B")
    = Ok false.
Proof.
  destruct (boundary_is_two_hop (mkConfig 3 6) (attempt_state 0)
              (attempt_state_wf 0) (attempt_state_attempt 0))
    as (s' & evs & Ht & _ & _ & _ & _ & Hf & HB & _).
  exists s', evs; repeat split; assumption.
Defined.

(** The test is not the symmetry around C itself: in the first ACT attempt
    of the default run B and D are opposite, yet the attempt fails. *)
Example boundary_not_around_C :
  let s := attempt_state 0 in
  let S' := acquired (st_S s) (st_baton_pos s) (t_DIR (st_task s)) in
  boundary_value S' (st_buf s) (IDX "C") = true /\
  lb_of s && rb_of s = false.
Proof. split; reflexivity. Qed.

(** C3. Escalation trigger.  In a tick that makes an ACT attempt, the
    failure count reaches the threshold (the attempt fails and
    [FAILCOUNT + 1 >= K]) if and only if that tick emits ESCALATE, sets
    [PARK = H], resets [FAILCOUNT] to 0 and flips the sign of [buf[C]]; when
    the attempt fails below the threshold none of the four happens: no
    ESCALATE, [PARK] and [buf] unchanged, [FAILCOUNT] incremented. *)
Theorem escalation_trigger (c : config) (s : state) :
  well_formed s -> act_attempt s ->
  exists s' evs,
    tick c s = Ok (s', Moved evs) /\
    let failed := lb_of s && rb_of s = false in
    let reached := failed /\ t_FAILCOUNT (st_task s) + 1 >= t_K (st_task s) in
    (reached <->
     count_ev is_ESCALATE evs = 1%nat /\
     t_PARK (st_task s') = t_H (st_task s) /\
     t_FAILCOUNT (st_task s') = 0 /\
     at_ (st_buf s') (IDX "C") = - at_ (st_buf s) (IDX "C")) /\
    (reached <-> exists h ch, In (ESCALATE h ch) evs) /\
    (reached ->
     at_ (st_buf s') (IDX "C") <> at_ (st_buf s) (IDX "C") /\
     forall i, 0 <= i < 6 -> i <> IDX "C" ->
               at_ (st_buf s') i = at_ (st_buf s) i) /\
    (failed -> t_FAILCOUNT (st_task s) + 1 < t_K (st_task s) ->
     count_ev is_ESCALATE evs = 0%nat /\
     t_PARK (st_task s') = t_PARK (st_task s) /\
     t_FAILCOUNT (st_task s') = t_FAILCOUNT (st_task s) + 1 /\
     st_buf s' = st_buf s).
Proof.
  intros Hwf (Hpark & Harr & HD).
  destruct (arrives_true s Harr) as (Hnew & _ & _).
  pose proof (wf_buf s Hwf) as Hb.
  assert (HC : 0 <= IDX "C" < Z.of_nat (List.length (st_buf s)))
    by (rewrite Hb; vm_compute; split; congruence).
  pose proof (at_sign _ _ (wf_signs s Hwf) HC) as Hsg.
  destruct (tick_total c s Hwf) as (s' & r & Ht & Hsp).
  assert (HCv : IDX "C" = 2) by reflexivity.
  tick_branches Hsp; rewrite Hnew in *;
    change (boundary_value
              (acquired (st_S s) (st_baton_pos s) (t_DIR (st_task s)))
              (st_buf s) (left (IDX "C"))) with (lb_of s) in *;
    change (boundary_value
              (acquired (st_S s) (st_baton_pos s) (t_DIR (st_task s)))
              (st_buf s) (right (IDX "C"))) with (rb_of s) in *;
    do 2 eexists; (split; [exact Ht|]);
    cbn [st_buf st_task t_PARK t_FAILCOUNT t_H]; cbv zeta.
  - (* success *)
    match goal with
    | H1 : lb_of s = true, H2 : rb_of s = true |- _ => rewrite H1, H2
    end.
    cbn [andb].
    split; [split; [intros [Hx _]; discriminate|]|].
    { intros [Hx _]; revert Hx.
      destruct (t_TTL (st_task s) - 1 >? 0); discriminate. }
    split; [split; [intros [Hx _]; discriminate|]|].
    { intros (h & ch & Hin); simpl in Hin.
      destruct (t_TTL (st_task s) - 1 >? 0);
        repeat destruct Hin as [Hin|Hin]; try discriminate; contradiction. }
    split; [intros [Hx _]; discriminate|intros Hx; discriminate].
  - (* failure below the threshold *)
    split; [split; [intros [_ Hx]; lia|intros [Hx _]; discriminate]|].
    split; [split; [intros [_ Hx]; lia|]|].
    { intros (h & ch & Hin); simpl in Hin.
      repeat destruct Hin as [Hin|Hin]; try discriminate; contradiction. }
    split; [intros [_ Hx]; lia|].
    intros _ _; repeat split; reflexivity.
  - (* escalation *)
    rewrite at_put_same by assumption.
    split; [split; [intros _; repeat split; lia|intros _; split; assumption]|].
    split; [split; [intros _|intros _; split; assumption]|].
    { do 2 eexists; simpl; auto 10. }
    split; [intros _; split|intros _ Hx; lia].
    + destruct Hsg as [->| ->]; discriminate.
    + intros i Hi Hne; apply at_put_other; lia.
Qed.

Lemma escalation_trigger_witness :
  exists s' evs,
    tick (mkConfig 3 6) (attempt_state 2) = Ok (s', Moved evs) /\
    count_ev is_ESCALATE evs = 1%nat /\
    t_PARK (st_task s') = 2 /\
    t_FAILCOUNT (st_task s') = 0 /\
    at_ (st_buf s') (IDX "C") = -1.
Proof.
  destruct (escalation_trigger (mkConfig 3 6) (attempt_state 2)
              (attempt_state_wf 2) (attempt_state_attempt 2))
    as (s' & evs & Ht & Hiff & _).
  destruct (proj1 Hiff) as (Hc & Hp & Hf & Hb).
  { split; [reflexivity|cbn; lia]. }
  exists s', evs; repeat split; assumption.
Defined.

(** ** The repeat budget *)

(** Once the task is inactive and not parked, every tick only moves the
    baton: no event, the task untouched, one ring step per tick. *)
Lemma inactive_run (c : config) (n : nat) :
  forall s, well_formed s ->
  t_P (st_task s) <> 1 -> t_PARK (st_task s) <= 0 ->
  exists tr,
    run c n s = Ok tr /\ List.length tr = n /\
    Forall (fun sr => snd sr = Moved [] /\ st_task (fst sr) = st_task s) tr /\
    map (fun sr => st_baton_pos (fst sr)) tr
    = orbit (t_DIR (st_task s)) n (st_baton_pos s).
Proof.
  induction n as [|n IH]; intros s Hwf HP Hpark.
  - exists []; repeat split; constructor.
  - destruct (tick_total c s Hwf) as (s1 & r1 & Ht & Hsp).
    assert (Harr : arrives s = false).
    { unfold arrives; destruct (Z.eqb_spec (t_P (st_task s)) 1);
        [contradiction|apply andb_false_r]. }
    pose proof (tick_spec_well_formed c s s1 r1 Hwf Hsp) as Hwf1.
    tick_branches Hsp.
    cbn [run]; rewrite Ht; cbn [bind fst].
    match type of Ht with
    | tick c s = Ok (?s1, _) =>
        destruct (IH s1 Hwf1 HP Hpark) as (tr & Hr & Hlen & Hall & Horb)
    end.
    rewrite Hr; cbn [bind].
    eexists; split; [reflexivity|].
    split; [simpl; congruence|].
    split; [constructor; [split; reflexivity|exact Hall]|].
    cbn [map orbit fst st_baton_pos]; f_equal; exact Horb.
Qed.

(** C7, as the code has it.  As long as the budget of an active task is at
    least 1 (so, for a configured [TTL >= 1]): [TTL] stays non-negative,
    decreases by exactly 1 in a tick that reports the mirror and is
    unchanged by every other tick; an active task becomes inactive ([P = 0],
    [D = 0]) exactly in the tick whose success takes [TTL] to 0; and from an
    inactive, unparked task on, every later tick reports no event at all
    while the baton advances one ring step per tick. *)
Theorem repeat_budget (c : config) (s : state) :
  well_formed s -> 0 <= t_TTL (st_task s) ->
  (t_P (st_task s) = 1 -> 1 <= t_TTL (st_task s)) ->
  exists s' r,
    tick c s = Ok (s', r) /\
    (In ACT_MIRROR (events_of r) ->
     t_TTL (st_task s') = t_TTL (st_task s) - 1) /\
    (~ In ACT_MIRROR (events_of r) ->
     t_TTL (st_task s') = t_TTL (st_task s)) /\
    0 <= t_TTL (st_task s') /\
    (t_P (st_task s') = 1 -> 1 <= t_TTL (st_task s')) /\
    (t_P (st_task s) = 1 ->
     (t_P (st_task s') <> 1 <->
      In ACT_MIRROR (events_of r) /\ t_TTL (st_task s') = 0) /\
     (t_P (st_task s') <> 1 ->
      t_P (st_task s') = 0 /\ t_D (st_task s') = 0 /\
      t_PARK (st_task s') <= 0)) /\
    (t_P (st_task s) <> 1 -> t_PARK (st_task s) <= 0 ->
     forall n, exists tr,
       run c n s = Ok tr /\ List.length tr = n /\
       Forall (fun sr => snd sr = Moved [] /\ st_task (fst sr) = st_task s)
              tr /\
       map (fun sr => st_baton_pos (fst sr)) tr
       = orbit (t_DIR (st_task s)) n (st_baton_pos s)).
Proof.
  intros Hwf Hnn Hbudget.
  destruct (tick_total c s Hwf) as (s' & r & Ht & Hsp).
  exists s', r; split; [exact Ht|].
  assert (Hrun : t_P (st_task s) <> 1 -> t_PARK (st_task s) <= 0 ->
                 forall n, exists tr,
                   run c n s = Ok tr /\ List.length tr = n /\
                   Forall (fun sr => snd sr = Moved [] /\
                                     st_task (fst sr) = st_task s) tr /\
                   map (fun sr => st_baton_pos (fst sr)) tr
                   = orbit (t_DIR (st_task s)) n (st_baton_pos s))
    by (intros HP Hpark n; apply inactive_run; assumption).
  assert (Hquiet :
            forall evs, ~ In ACT_MIRROR evs ->
            forall P', P' = t_P (st_task s) ->
            (In ACT_MIRROR evs -> t_TTL (st_task s) = t_TTL (st_task s) - 1)
            /\ (~ In ACT_MIRROR evs -> t_TTL (st_task s) = t_TTL (st_task s))
            /\ 0 <= t_TTL (st_task s)
            /\ (P' = 1 -> 1 <= t_TTL (st_task s))
            /\ (t_P (st_task s) = 1 ->
                (P' <> 1 <-> In ACT_MIRROR evs /\ t_TTL (st_task s) = 0) /\
                (P' <> 1 -> P' = 0 /\ t_D (st_task s) = 0 /\
                            t_PARK (st_task s) <= 0))).
  { intros evs Hno P' ->; repeat split; auto; try contradiction;
      try (intros [? _]; contradiction); intros; congruence. }
  inversion Hsp as [ | | | Hpk Harr HD Hlb Hrb | | ]; subst;
    repeat match goal with x := _ |- _ => subst x end;
    cbn [st_task t_TTL t_P t_D t_PARK events_of].
  - (* parked *)
    destruct (Hquiet [] (fun H => H) _ eq_refl) as (A & B & C & D & E).
    split; [exact A|]. split; [exact B|]. split; [exact C|].
    split; [exact D|]. split; [|exact Hrun].
    intros HP; destruct (E HP) as [E1 E2]; split; [exact E1|].
    intros Hx; contradiction.
  - destruct (Hquiet [] (fun H => H) _ eq_refl) as (A & B & C & D & E).
    split; [exact A|]. split; [exact B|]. split; [exact C|].
    split; [exact D|]. split; [|exact Hrun].
    intros HP; destruct (E HP) as [E1 E2]; split; [exact E1|].
    intros Hx; contradiction.
  - (* jump *)
    assert (Hno : ~ In ACT_MIRROR [ARRIVE_C; JUMP])
      by (simpl; intuition discriminate).
    destruct (Hquiet _ Hno _ eq_refl) as (A & B & C & D & E).
    split; [exact A|]. split; [exact B|]. split; [exact C|].
    split; [exact D|]. split; [|exact Hrun].
    intros HP; destruct (E HP) as [E1 E2]; split; [exact E1|].
    intros Hx; contradiction.
  - (* success *)
    destruct (arrives_true s Harr) as (_ & _ & HP).
    specialize (Hbudget HP).
    assert (Hin : In ACT_MIRROR
                    [ARRIVE_C; BOUNDARY true true; ACT_MIRROR;
                     TTL_TO (t_TTL (st_task s) - 1);
                     if t_TTL (st_task s) - 1 >? 0 then RE_ARM else DONE])
      by (simpl; auto).
    split; [reflexivity|]. split; [intros Hx; contradiction|].
    split; [lia|].
    destruct (Z.gtb_spec (t_TTL (st_task s) - 1) 0) as [Hgt|Hle].
    + split; [intros; lia|]. split; [|intros Hx; contradiction].
      intros _; split; [split; [intros Hx; contradiction|intros [_ Hx]; lia]|].
      intros Hx; contradiction.
    + split; [intros Hx; discriminate|]. split; [|intros Hx; contradiction].
      intros _; split; [split; [intros _; split; [exact Hin|lia]|]|].
      * intros _; discriminate.
      * intros _; repeat split; lia.
  - (* failure *)
    match goal with
    | |- context [In ACT_MIRROR ?l] =>
        assert (Hno : ~ In ACT_MIRROR l) by (simpl; intuition discriminate)
    end.
    destruct (Hquiet _ Hno _ eq_refl) as (A & B & C & D & E).
    split; [exact A|]. split; [exact B|]. split; [exact C|].
    split; [exact D|]. split; [|exact Hrun].
    intros HP; destruct (E HP) as [E1 E2]; split; [exact E1|].
    intros Hx; contradiction.
  - (* escalation *)
    match goal with
    | |- context [In ACT_MIRROR ?l] =>
        assert (Hno : ~ In ACT_MIRROR l) by (simpl; intuition discriminate)
    end.
    destruct (Hquiet _ Hno _ eq_refl) as (A & B & C & D & E).
    split; [exact A|]. split; [exact B|]. split; [exact C|].
    split; [exact D|]. split; [|exact Hrun].
    intros HP; destruct (E HP) as [E1 E2]; split; [exact E1|].
    intros Hx; contradiction.
Qed.

Lemma repeat_budget_witness :
  exists s' r,
    tick (mkConfig 3 6) (mirror_state 1 0) = Ok (s', r) /\
    In ACT_MIRROR (events_of r) /\
    t_TTL (st_task s') = 0 /\
    t_P (st_task s') <> 1.
Proof.
  destruct (repeat_budget (mkConfig 3 6) (mirror_state 1 0)
              (mirror_state_wf 1 0))
    as (s' & r & Ht & _ & _ & _ & _ & Hdone & _);
    [cbn; lia|cbn; lia|].
  exists s', r; split; [exact Ht|].
  vm_compute in Ht; injection Ht as <- <-; cbn.
  split; [auto|]. split; [reflexivity|discriminate].
Defined.

(** C7, as stated, fails where [simulate] is given a budget below 1, which
    it accepts: with [TTL = -1] the task starts active on a negative
    budget; and a success on a budget of 0 takes [TTL] to -1, ending the
    task without [TTL] ever being 0 after a success. *)
Lemma budget_below_zero :
  (exists s0,
     simulate 0 3 6 (-1) = Ok (s0, []) /\
     t_P (st_task s0) = 1 /\ t_TTL (st_task s0) = -1) /\
  (exists s' evs,
     tick (mkConfig 3 6) (mirror_state 0 0) = Ok (s', Moved evs) /\
     In ACT_MIRROR evs /\
     t_TTL (st_task s') = -1 /\ t_P (st_task s') = 0).
Proof.
  split.
  - eexists; split; [vm_compute; reflexivity|split; reflexivity].
  - do 2 eexists; split; [vm_compute; reflexivity|].
    split; [simpl; auto|split; reflexivity].
Qed.

(** ** Consecutive failures along a run *)

Lemma count_ev_app (p : event -> bool) (l1 l2 : list event) :
  count_ev p (l1 ++ l2) = (count_ev p l1 + count_ev p l2)%nat.
Proof. unfold count_ev; rewrite filter_app, length_app; reflexivity. Qed.

Lemma trace_events_cons (sr : state * report) (tr : list (state * report)) :
  trace_events (sr :: tr) = events_of (snd sr) ++ trace_events tr.
Proof. reflexivity. Qed.

Lemma last_default (A : Type) (x : A) (l : list A) (d d' : A) :
  last (x :: l) d = last (x :: l) d'.
Proof.
  revert x; induction l as [|y l IH]; intros x; [reflexivity|].
  change (last (y :: l) d = last (y :: l) d'); apply IH.
Qed.

Lemma count_last_le (p : event -> bool) (x : state * report)
    (tr : list (state * report)) (d : state * report) :
  (count_ev p (events_of (snd (last (x :: tr) d)))
   <= count_ev p (trace_events (x :: tr)))%nat.
Proof.
  revert x; induction tr as [|y tr IH]; intros x.
  - cbn [last]; rewrite trace_events_cons, count_ev_app; lia.
  - change (last (x :: y :: tr) d) with (last (y :: tr) d).
    rewrite (trace_events_cons x), count_ev_app.
    specialize (IH y); lia.
Qed.

Lemma reverse_dir_thrice (d : string) :
  reverse_dir (reverse_dir (reverse_dir d)) = reverse_dir d.
Proof.
  unfold reverse_dir; destruct (String.eqb d "CW"); reflexivity.
Qed.

Lemma reverse_dir_changes (d : string) : reverse_dir d <> d.
Proof.
  unfold reverse_dir; destruct (String.eqb_spec d "CW") as [->|Hne];
    [discriminate|congruence].
Qed.

(** What a tick does to the failure bookkeeping, branch by branch. *)
Lemma tick_spec_summary (c : config) (s s' : state) (r : report) :
  well_formed s -> tick_spec c s s' r ->
  let cnt p := count_ev p (events_of r) in
  t_K (st_task s') = t_K (st_task s) /\
  t_H (st_task s') = t_H (st_task s) /\
  ((cnt is_HESITATE = 0 /\ cnt is_ACT_MIRROR = 0 /\ cnt is_REV_DIR = 0 /\
    cnt is_ESCALATE = 0 /\
    t_FAILCOUNT (st_task s') = t_FAILCOUNT (st_task s) /\
    t_DIR (st_task s') = t_DIR (st_task s) /\
    st_buf s' = st_buf s)%nat
   \/ cnt is_ACT_MIRROR = 1%nat
   \/ ((cnt is_HESITATE = 1 /\ cnt is_ACT_MIRROR = 0 /\ cnt is_REV_DIR = 1 /\
        cnt is_ESCALATE = 0)%nat /\
       t_FAILCOUNT (st_task s) + 1 < t_K (st_task s) /\
       t_FAILCOUNT (st_task s') = t_FAILCOUNT (st_task s) + 1 /\
       t_DIR (st_task s') = reverse_dir (t_DIR (st_task s)) /\
       st_buf s' = st_buf s)
   \/ ((cnt is_HESITATE = 1 /\ cnt is_ACT_MIRROR = 0 /\ cnt is_REV_DIR = 1 /\
        cnt is_ESCALATE = 1)%nat /\
       t_FAILCOUNT (st_task s) + 1 >= t_K (st_task s) /\
       t_DIR (st_task s') = reverse_dir (t_DIR (st_task s)) /\
       at_ (st_buf s') (IDX "C") = - at_ (st_buf s) (IDX "C") /\
       t_PARK (st_task s') = t_H (st_task s))).
Proof.
  intros Hwf Hsp cnt; subst cnt; cbv beta.
  pose proof (wf_buf s Hwf) as Hb.
  inversion Hsp; subst;
    repeat match goal with x := _ |- _ => subst x end;
    cbn [st_task st_buf t_K t_H t_FAILCOUNT t_DIR t_PARK events_of];
    (split; [reflexivity|]); (split; [reflexivity|]).
  - left; repeat split.
  - left; repeat split.
  - left; repeat split.
  - right; left.
    destruct (t_TTL (st_task s) - 1 >? 0); reflexivity.
  - right; right; left; repeat split; assumption.
  - right; right; right; repeat split; try assumption.
    rewrite at_put_same by (rewrite Hb; vm_compute; split; congruence).
    lia.
Qed.

(** A stretch of a run without success that ends on the failure bringing
    the count to the threshold 3: every failure reverses the direction once
    and only the last one escalates. *)
Lemma failures_until_escalation (c : config) (n : nat) :
  forall (s : state) (tr : list (state * report)) (f : nat),
  well_formed s -> t_K (st_task s) = 3 -> 0 <= t_FAILCOUNT (st_task s) ->
  run c n s = Ok tr ->
  count_ev is_HESITATE (trace_events tr) = f ->
  count_ev is_ACT_MIRROR (trace_events tr) = 0%nat ->
  count_ev is_HESITATE (events_of (snd (last tr (s, Parked)))) = 1%nat ->
  t_FAILCOUNT (st_task s) + Z.of_nat f = 3 ->
  count_ev is_REV_DIR (trace_events tr) = f /\
  t_DIR (st_task (final s tr)) = Nat.iter f reverse_dir (t_DIR (st_task s)) /\
  (f = 3%nat ->
   t_DIR (st_task (final s tr)) = reverse_dir (t_DIR (st_task s)) /\
   t_DIR (st_task (final s tr)) <> t_DIR (st_task s)) /\
  count_ev is_ESCALATE (trace_events tr) = 1%nat /\
  count_ev is_ESCALATE (events_of (snd (last tr (s, Parked)))) = 1%nat /\
  at_ (st_buf (final s tr)) (IDX "C") = - at_ (st_buf s) (IDX "C") /\
  t_PARK (st_task (final s tr)) = t_H (st_task s).
Proof.
  assert (Hthree : forall d, Nat.iter 3 reverse_dir d = reverse_dir d)
    by (intros d; apply reverse_dir_thrice).
  assert (Hgoal3 :
    forall (d0 dn : string) (f : nat),
      dn = Nat.iter f reverse_dir d0 ->
      f = 3%nat -> dn = reverse_dir d0 /\ dn <> d0).
  { intros d0 dn f -> ->; rewrite Hthree.
    split; [reflexivity|apply reverse_dir_changes]. }
  induction n as [|n IH]; intros s tr f Hwf HK Hfc Hrun Hf Hm Hlast Hsum.
  - injection Hrun as <-; discriminate.
  - cbn [run] in Hrun.
    destruct (tick_total c s Hwf) as (s1 & r1 & Ht & Hsp).
    rewrite Ht in Hrun; cbn [bind fst] in Hrun.
    destruct (run c n s1) as [tr1|e] eqn:Hr1; [|discriminate].
    cbn [bind] in Hrun; injection Hrun as <-.
    pose proof (tick_spec_well_formed c s s1 r1 Hwf Hsp) as Hwf1.
    destruct (tick_spec_summary c s s1 r1 Hwf Hsp) as (HK1 & HH1 & Hkind).
    cbv zeta in Hkind.
    rewrite trace_events_cons in Hf, Hm |- *; cbn [snd] in Hf, Hm |- *.
    rewrite !count_ev_app in *.
    destruct tr1 as [|x tr1].
    + (* the tick of the last failure *)
      cbn [last snd trace_events map List.concat] in *.
      unfold final; cbn [last fst].
      change (count_ev is_HESITATE []) with 0%nat in Hf.
      destruct Hkind as [Hq|[Hs|[Hfl|He]]]; try lia.
      destruct He as ((e1 & e2 & e3 & e4) & HK' & Hd & Hbuf & Hpk).
      rewrite e1 in Hf; cbn [Nat.add] in Hf; subst f.
      rewrite e3, e4; cbn [Nat.iter].
      repeat split; auto; try discriminate.
    + (* an earlier tick *)
      change (last ((s1, r1) :: x :: tr1) (s, Parked))
        with (last (x :: tr1) (s, Parked)) in *.
      rewrite (last_default _ x tr1 (s, Parked) (s1, Parked)) in *.
      assert (Hfin : final s ((s1, r1) :: x :: tr1) = final s1 (x :: tr1)).
      { unfold final.
        change (last ((s1, r1) :: x :: tr1) (s, Parked))
          with (last (x :: tr1) (s, Parked)).
        rewrite (last_default _ x tr1 (s, Parked) (s1, Parked)).
        reflexivity. }
      rewrite Hfin.
      pose proof (count_last_le is_HESITATE x tr1 (s1, Parked)) as Hle.
      (* a success or an escalation here contradicts the counts *)
      destruct Hkind as [Hq|[Hs|[Hfl|He]]]; try lia.
      * destruct Hq as (e1 & e2 & e3 & e4 & Hf1 & Hd & Hbuf).
        rewrite e1 in Hf; rewrite e2 in Hm; cbn [Nat.add] in Hf, Hm.
        destruct (IH s1 (x :: tr1) f Hwf1) as (A & B & C & D & E & F & G);
          try assumption; try lia.
        rewrite e3, e4, <- Hd, <- Hbuf, <- HH1; cbn [Nat.add].
        split; [exact A|]. split; [exact B|]. split; [|auto].
        intros H3; apply (Hgoal3 _ _ f); [exact B|exact H3].
      * destruct Hfl as ((e1 & e2 & e3 & e4) & HK' & Hf1 & Hd & Hbuf).
        rewrite e1 in Hf; rewrite e2 in Hm; cbn [Nat.add] in Hm.
        destruct f as [|f]; [lia|].
        destruct (IH s1 (x :: tr1) f Hwf1) as (A & B & C & D & E & F & G);
          try assumption; try lia.
        rewrite e3, e4, A, <- Hbuf, <- HH1; cbn [Nat.add].
        assert (B' : t_DIR (st_task (final s1 (x :: tr1)))
                     = Nat.iter (S f) reverse_dir (t_DIR (st_task s)))
          by (rewrite B, Hd, Nat.iter_succ_r; reflexivity).
        split; [reflexivity|]. split; [exact B'|]. split; [|auto].
        intros H3; apply (Hgoal3 _ _ (S f)); [exact B'|exact H3].
Qed.

(** C8, as the code has it.  From a failure count of 0 under the threshold
    3, a stretch of a run that ends on the third of three act failures,
    with no success among them, reverses the direction exactly three times,
    so that the direction it ends with is the reverse of the one it began
    with (not the original one); it emits exactly one ESCALATE, in the tick
    of the third failure, flips the sign of [buf[C]] once and sets
    [PARK = H]. *)
Theorem three_failures_escalate (c : config) (n : nat) (s : state)
    (tr : list (state * report)) :
  well_formed s ->
  t_K (st_task s) = 3 -> t_FAILCOUNT (st_task s) = 0 ->
  run c n s = Ok tr ->
  count_ev is_HESITATE (trace_events tr) = 3%nat ->
  count_ev is_ACT_MIRROR (trace_events tr) = 0%nat ->
  count_ev is_HESITATE (events_of (snd (last tr (s, Parked)))) = 1%nat ->
  count_ev is_REV_DIR (trace_events tr) = 3%nat /\
  t_DIR (st_task (final s tr))
  = reverse_dir (reverse_dir (reverse_dir (t_DIR (st_task s)))) /\
  t_DIR (st_task (final s tr)) = reverse_dir (t_DIR (st_task s)) /\
  t_DIR (st_task (final s tr)) <> t_DIR (st_task s) /\
  count_ev is_ESCALATE (trace_events tr) = 1%nat /\
  count_ev is_ESCALATE (events_of (snd (last tr (s, Parked)))) = 1%nat /\
  at_ (st_buf (final s tr)) (IDX "C") = - at_ (st_buf s) (IDX "C") /\
  t_PARK (st_task (final s tr)) = t_H (st_task s).
Proof.
  intros Hwf HK Hfc Hrun Hf Hm Hlast.
  destruct (failures_until_escalation c n s tr 3 Hwf HK) as
    (A & B & C & D & E & F & G); try assumption; try lia.
  destruct (C eq_refl) as [C1 C2].
  repeat split; assumption.
Qed.

Lemma initial_state_default : initial_state default_TTL = Ok default_start.
Proof. reflexivity. Qed.

Lemma default_start_wf : well_formed default_start.
Proof.
  constructor; cbn; try reflexivity; try lia.
  repeat (apply Forall_cons; [unfold is_sign; auto|]); apply Forall_nil.
Defined.

Lemma three_failures_escalate_witness :
  exists tr,
    run (mkConfig 3 6) 20 default_start = Ok tr /\
    t_DIR (st_task (final default_start tr)) = "CCW"%string /\
    count_ev is_ESCALATE (trace_events tr) = 1%nat /\
    at_ (st_buf (final default_start tr)) (IDX "C") = -1 /\
    t_PARK (st_task (final default_start tr)) = 2.
Proof.
  destruct (run (mkConfig 3 6) 20 default_start) as [tr|e] eqn:Hr;
    [|vm_compute in Hr; discriminate].
  exists tr; split; [reflexivity|].
  pose proof (three_failures_escalate (mkConfig 3 6) 20 default_start tr
                default_start_wf eq_refl eq_refl Hr) as H.
  vm_compute in Hr; injection Hr as <-.
  destruct (H eq_refl eq_refl eq_refl) as (_ & _ & HD & _ & HE & _ & HB & HP).
  repeat split; assumption.
Defined.

(** C8, as stated, fails: in the default run the three consecutive act
    failures are those of ticks 8, 14 and 20, the run starts clockwise and
    after the third failure it travels counter-clockwise. *)
Lemma three_failures_flip_direction :
  exists s0 tr,
    simulate 20 3 6 3 = Ok (s0, tr) /\
    t_K (st_task s0) = 3 /\ t_FAILCOUNT (st_task s0) = 0 /\
    count_ev is_HESITATE (trace_events tr) = 3%nat /\
    count_ev is_ACT_MIRROR (trace_events tr) = 0%nat /\
    map (fun sr => count_ev is_HESITATE (events_of (snd sr))) tr
    = [0; 0; 0; 0; 0; 0; 0; 1; 0; 0; 0; 0; 0; 1; 0; 0; 0; 0; 0; 1]%nat /\
    t_DIR (st_task s0) = "CW"%string /\
    t_DIR (st_task (final s0 tr)) = "CCW"%string /\
    t_DIR (st_task (final s0 tr)) <> t_DIR (st_task s0).
Proof.
  do 2 eexists; split; [vm_compute; reflexivity|].
  repeat split; discriminate.
Qed.

(** ** The ring, beyond the claims *)

Lemma left_right_mod (i : Z) :
  left (right i) = i mod N /\ right (left i) = i mod N.
Proof.
  unfold left, right; rewrite N_is_6; split.
  - rewrite Zminus_mod_idemp_l; f_equal; lia.
  - rewrite Zplus_mod_idemp_l; f_equal; lia.
Qed.

(** [left] and [right] undo each other: on every integer each round trip
    gives the index reduced to the ring, so on a ring position it gives the
    position back. *)
Theorem left_right_round_trip (i : Z) :
  left (right i) = i mod N /\ right (left i) = i mod N /\
  (i mod N = i <-> 0 <= i < 6).
Proof.
  destruct (left_right_mod i) as [HL HR].
  split; [exact HL|]. split; [exact HR|].
  rewrite N_is_6; split.
  - intros <-; apply Z.mod_pos_bound; lia.
  - intros Hi; apply Z.mod_small; exact Hi.
Qed.

(** A step in the reversed direction undoes a step, whatever the direction
    string is. *)
Theorem step_back_round_trip (pos : Z) (d : string) :
  step_baton (step_baton pos d) (reverse_dir d) = pos mod N.
Proof.
  unfold step_baton, reverse_dir.
  destruct (String.eqb d "CW"); cbn [String.eqb Ascii.eqb Bool.eqb];
    apply left_right_mod.
Qed.

(** Six moves in a fixed direction visit each of the six tiles exactly once
    and end on the starting tile. *)
Theorem full_lap (pos : Z) (d : string) :
  0 <= pos < 6 ->
  NoDup (orbit d 6 pos) /\
  (forall i, 0 <= i < 6 -> In i (orbit d 6 pos)) /\
  last (orbit d 6 pos) pos = pos.
Proof.
  intros Hp.
  assert (Horb : orbit d 6 pos
                 = if String.eqb d "CW"
                   then [right pos; right (right pos);
                         right (right (right pos));
                         right (right (right (right pos)));
                         right (right (right (right (right pos))));
                         right (right (right (right (right (right pos)))))]
                   else [left pos; left (left pos); left (left (left pos));
                         left (left (left (left pos)));
                         left (left (left (left (left pos))));
                         left (left (left (left (left (left pos)))))]).
  { cbn [orbit]; unfold step_baton; destruct (String.eqb d "CW");
      reflexivity. }
  rewrite Horb; clear Horb.
  destruct (String.eqb d "CW");
    destruct (ring_cases pos Hp) as [->|[->|[->|[->|[->| ->]]]]];
    (split; [|split; [|reflexivity]]).
  all: try (intros i Hi;
            destruct (ring_cases i Hi) as [->|[->|[->|[->|[->| ->]]]]];
            vm_compute; tauto).
  all: vm_compute;
    repeat (constructor; [simpl; intuition discriminate|]); constructor.
Qed.

Lemma full_lap_witness :
  NoDup (orbit "CCW" 6 2) /\ last (orbit "CCW" 6 2) 2 = 2.
Proof.
  destruct (full_lap 2 "CCW") as (Hnd & _ & Hlast); [lia|].
  split; assumption.
Defined.

(** ** The boundary evaluator, beyond the claims *)

Lemma left_period (i : Z) : left (i + N) = left i.
Proof.
  unfold left; rewrite N_is_6.
  replace (i + 6 - 1) with (i - 1 + 1 * 6) by lia; apply Z_mod_plus_full.
Qed.

Lemma right_period (i : Z) : right (i + N) = right i.
Proof.
  unfold right; rewrite N_is_6.
  replace (i + 6 + 1) with (i + 1 + 1 * 6) by lia; apply Z_mod_plus_full.
Qed.

(** On lists of [N] entries [boundary_strict_effective] returns for every
    integer index, negative or beyond the ring, and only depends on the
    index modulo [N]. *)
Theorem boundary_any_index (S buf : list Z) (i : Z) :
  List.length S = 6%nat -> List.length buf = 6%nat ->
  exists b,
    boundary_strict_effective S buf i = Ok b /\
    boundary_strict_effective S buf (i + N) = Ok b /\
    boundary_strict_effective S buf (i - N) = Ok b.
Proof.
  intros HS Hb; exists (boundary_value S buf i).
  rewrite !boundary_ok by assumption.
  unfold boundary_value.
  rewrite left_period, right_period.
  rewrite <- (left_period (i - N)), <- (right_period (i - N)).
  replace (i - N + N) with i by lia.
  repeat split.
Qed.

Lemma boundary_any_index_witness :
  boundary_strict_effective [1; 1; 0; -1; -1; -1] [1; 1; 1; -1; -1; -1] (-5)
  = boundary_strict_effective [1; 1; 0; -1; -1; -1] [1; 1; 1; -1; -1; -1] 7.
Proof.
  destruct (boundary_any_index [1; 1; 0; -1; -1; -1] [1; 1; 1; -1; -1; -1]
              1 eq_refl eq_refl) as (b & _ & H7 & H5).
  change (1 + N) with 7 in H7; change (1 - N) with (-5) in H5.
  rewrite H7, H5; reflexivity.
Defined.

Lemma at_trit (S : list Z) (i : Z) :
  Forall trit S -> 0 <= i < Z.of_nat (List.length S) -> trit (at_ S i).
Proof.
  intros HF Hi; unfold at_.
  rewrite Forall_forall in HF; apply HF, nth_In; lia.
Qed.

(** When [S] holds polarities or the baton's 0 and [buf] holds signs, every
    effective value is a sign, and the strict boundary at [i] is exactly
    "the two neighbours of [i] have different effective values". *)
Theorem boundary_means_opposite (S buf : list Z) (i : Z) :
  List.length S = 6%nat -> List.length buf = 6%nat ->
  Forall trit S -> Forall is_sign buf ->
  exists a b,
    eff S buf (left i) = Ok a /\ eff S buf (right i) = Ok b /\
    is_sign a /\ is_sign b /\
    boundary_strict_effective S buf i = Ok (negb (a =? b)).
Proof.
  intros HS Hb HtS Hsb.
  assert (Hsign : forall j, 0 <= j < 6 -> is_sign (eff_value S buf j)).
  { intros j Hj; unfold eff_value.
    assert (Ht : trit (at_ S j)) by (apply at_trit; [assumption|lia]).
    assert (Hs : is_sign (at_ buf j)) by (apply at_sign; [assumption|lia]).
    destruct Ht as [Ht|[Ht|Ht]]; rewrite Ht; cbn; unfold is_sign; auto. }
  pose proof (left_range i) as HL; pose proof (right_range i) as HR.
  exists (eff_value S buf (left i)), (eff_value S buf (right i)).
  rewrite !eff_ok, boundary_ok by assumption.
  repeat split; auto.
  unfold boundary_value.
  destruct (Hsign _ HL) as [->| ->]; destruct (Hsign _ HR) as [->| ->];
    reflexivity.
Qed.

Lemma boundary_means_opposite_witness :
  boundary_strict_effective [1; 1; 0; -1; -1; -1] [1; 1; 1; -1; -1; -1] 3
  = Ok true.
Proof.
  destruct (boundary_means_opposite
              [1; 1; 0; -1; -1; -1] [1; 1; 1; -1; -1; -1] 3 eq_refl eq_refl)
    as (a & b & Ha & Hb & _ & _ & Hbd).
  - repeat (apply Forall_cons; [unfold trit; auto|]); apply Forall_nil.
  - repeat (apply Forall_cons; [unfold is_sign; auto|]); apply Forall_nil.
  - rewrite Hbd; vm_compute in Ha, Hb.
    injection Ha as <-; injection Hb as <-; reflexivity.
Defined.

(** [eff] indexes like a Python list: an index in [-N, 0) counts from the
    end, anything outside [-N, N) raises [IndexError]. *)
Theorem eff_index_edges (S buf : list Z) (i : Z) :
  List.length S = 6%nat -> List.length buf = 6%nat ->
  (i < -6 \/ 6 <= i -> eff S buf i = Raise IndexError) /\
  (-6 <= i < 0 -> eff S buf i = eff S buf (i + 6)).
Proof.
  intros HS Hb; unfold eff, getitem, norm_index; rewrite HS, Hb; split.
  - intros [Hi|Hi].
    + destruct (Z.ltb_spec i 0); [|lia].
      destruct (Z.leb_spec 0 (i + Z.of_nat 6)); [lia|reflexivity].
    + destruct (Z.ltb_spec i 0); [lia|].
      destruct (Z.leb_spec 0 i); [|lia].
      destruct (Z.ltb_spec i (Z.of_nat 6)); [lia|reflexivity].
  - intros Hi.
    destruct (Z.ltb_spec i 0); [|lia].
    destruct (Z.ltb_spec (i + 6) 0); [lia|].
    change (Z.of_nat 6) with 6; reflexivity.
Qed.

Lemma eff_index_edges_witness :
  eff [1; 1; 0; -1; -1; -1] [1; 1; 1; -1; -1; -1] 6 = Raise IndexError /\
  eff [1; 1; 0; -1; -1; -1] [1; 1; 1; -1; -1; -1] (-1) = Ok (-1).
Proof.
  destruct (eff_index_edges [1; 1; 0; -1; -1; -1] [1; 1; 1; -1; -1; -1] 6
              eq_refl eq_refl) as [Hout _].
  destruct (eff_index_edges [1; 1; 0; -1; -1; -1] [1; 1; 1; -1; -1; -1] (-1)
              eq_refl eq_refl) as [_ Hneg].
  split; [apply Hout; lia|rewrite Hneg by lia; reflexivity].
Defined.

Lemma s_char_cases (v : Z) :
  (v = 1 /\ s_char v = Ok "+"%string) \/
  (v = 0 /\ s_char v = Ok "0"%string) \/
  (v = -1 /\ s_char v = Ok "-"%string) \/
  (~ trit v /\ s_char v = Raise KeyError).
Proof.
  unfold s_char, trit.
  destruct (Z.eqb_spec v 1) as [->|H1]; [left; auto|].
  destruct (Z.eqb_spec v 0) as [->|H0]; [right; left; auto|].
  destruct (Z.eqb_spec v (-1)) as [->|Hm]; [right; right; left; auto|].
  right; right; right; split; [intros [?|[?|?]]; contradiction|reflexivity].
Qed.

(** [s_char] is defined exactly on +1, 0 and -1, raises [KeyError] on every
    other integer, and never maps two values to one character. *)
Theorem s_char_domain (v : Z) :
  (trit v <-> exists ch, s_char v = Ok ch) /\
  (~ trit v <-> s_char v = Raise KeyError) /\
  (forall w ch, s_char v = Ok ch -> s_char w = Ok ch -> v = w).
Proof.
  assert (Hin : forall u, trit u -> exists ch, s_char u = Ok ch)
    by (intros u [->|[->| ->]]; eexists; reflexivity).
  split; [|split].
  - split; [apply Hin|].
    intros [ch Hch].
    destruct (s_char_cases v) as [[-> _]|[[-> _]|[[-> _]|[_ He]]]];
      unfold trit; auto; congruence.
  - split.
    + intros Hn.
      destruct (s_char_cases v) as [[-> _]|[[-> _]|[[-> _]|[_ He]]]];
        try exact He; exfalso; apply Hn; unfold trit; auto.
    + intros He Ht; destruct (Hin v Ht) as [ch Hch]; congruence.
  - intros w ch Hv Hw.
    destruct (s_char_cases v) as [[-> Ev]|[[-> Ev]|[[-> Ev]|[_ Ev]]]];
      destruct (s_char_cases w) as [[-> Ew]|[[-> Ew]|[[-> Ew]|[_ Ew]]]];
      try reflexivity; congruence.
Qed.

(** ** The tick, beyond the claims *)

(** With fewer than [N] shadow levels the decay loop runs off the end of
    [E]: the tick raises [IndexError], whatever the rest of the state. *)
Theorem tick_short_shadows (c : config) (s : state) :
  (List.length (st_E s) < 6)%nat -> tick c s = Raise IndexError.
Proof.
  intros Hlen; unfold tick.
  assert (Hd : decay_shadows (st_E s) = Raise IndexError).
  { destruct (st_E s) as [|e0 [|e1 [|e2 [|e3 [|e4 [|e5 E]]]]]];
      [| | | | | | simpl in Hlen; lia];
      unfold decay_shadows; simpl;
      repeat match goal with
             | |- context [bind (if ?e >? 0 then _ else _) _] =>
                 destruct (e >? 0); simpl
             end;
      reflexivity. }
  rewrite Hd; reflexivity.
Qed.

Lemma tick_short_shadows_witness :
  tick (mkConfig 3 6)
       (mkState [0; 1; 1; -1; -1; -1] [0; 0; 0; 0; 0] [1; 1; 1; -1; -1; -1] 0
                (new_Task 3))
  = Raise IndexError.
Proof. apply tick_short_shadows; simpl; lia. Defined.

(** What a tick never does: it never changes the threshold [K] or the park
    duration [H], never touches [buf] outside C (and at C keeps it or
    negates it), never raises [TTL] and never turns an inactive task
    active again. *)
Theorem tick_never_changes (c : config) (s : state) :
  well_formed s ->
  exists s' r,
    tick c s = Ok (s', r) /\
    t_K (st_task s') = t_K (st_task s) /\
    t_H (st_task s') = t_H (st_task s) /\
    (forall i, 0 <= i < 6 -> i <> IDX "C" ->
               at_ (st_buf s') i = at_ (st_buf s) i) /\
    (at_ (st_buf s') (IDX "C") = at_ (st_buf s) (IDX "C") \/
     at_ (st_buf s') (IDX "C") = - at_ (st_buf s) (IDX "C")) /\
    t_TTL (st_task s') <= t_TTL (st_task s) /\
    (t_P (st_task s') = 1 -> t_P (st_task s) = 1).
Proof.
  intros Hwf.
  pose proof (wf_buf s Hwf) as Hb.
  destruct (tick_total c s Hwf) as (s' & r & Ht & Hsp).
  exists s', r; split; [exact Ht|].
  assert (HC : 0 <= IDX "C" < Z.of_nat (List.length (st_buf s)))
    by (rewrite Hb; vm_compute; split; congruence).
  inversion Hsp as [ | | | Hpk Harr HD Hlb Hrb | | ]; subst;
    repeat match goal with x := _ |- _ => subst x end;
    cbn [st_task st_buf t_K t_H t_TTL t_P];
    (split; [reflexivity|]); (split; [reflexivity|]).
  1-5: split; [intros; reflexivity|]; split; [left; reflexivity|].
  1-3, 5: split; [lia|intros HP; exact HP].
  - split; [lia|].
    destruct (t_TTL (st_task s) - 1 >? 0);
      [intros HP; exact HP|discriminate].
  - split; [intros i Hi Hne; apply at_put_other; lia|].
    split; [right; rewrite at_put_same by exact HC; lia|].
    split; [lia|intros HP; exact HP].
Qed.

Lemma tick_never_changes_witness :
  exists s' r,
    tick (mkConfig 3 6) (attempt_state 2) = Ok (s', r) /\
    t_K (st_task s') = 3 /\ at_ (st_buf s') 0 = 1.
Proof.
  destruct (tick_never_changes (mkConfig 3 6) (attempt_state 2)
              (attempt_state_wf 2)) as (s' & r & Ht & HK & _ & Hb & _).
  exists s', r; split; [exact Ht|]; split; [exact HK|].
  rewrite Hb; [reflexivity|lia|discriminate].
Defined.

(** A tick that is not parked moves the baton by exactly one ring step in
    the current direction: the tile it leaves gets its domain sign back,
    the tile it enters gets 0, and no other tile of [S] changes. *)
Theorem tick_moves_one_step (c : config) (s : state) :
  well_formed s -> t_PARK (st_task s) <= 0 ->
  exists s' evs,
    tick c s = Ok (s', Moved evs) /\
    st_baton_pos s' = step_baton (st_baton_pos s) (t_DIR (st_task s)) /\
    st_baton_pos s' <> st_baton_pos s /\
    at_ (st_S s') (st_baton_pos s') = 0 /\
    at_ (st_S s') (st_baton_pos s) = domain_sign (st_baton_pos s) /\
    (forall i, 0 <= i < 6 -> i <> st_baton_pos s -> i <> st_baton_pos s' ->
               at_ (st_S s') i = at_ (st_S s) i).
Proof.
  intros Hwf Hpark.
  pose proof (wf_S s Hwf) as HS; pose proof (wf_pos s Hwf) as Hp.
  pose proof (step_baton_range (st_baton_pos s) (t_DIR (st_task s))) as Hn.
  pose proof (step_baton_moves (st_baton_pos s) (t_DIR (st_task s)) Hp)
    as Hmv.
  assert (Hacq :
    at_ (acquired (st_S s) (st_baton_pos s) (t_DIR (st_task s)))
        (step_baton (st_baton_pos s) (t_DIR (st_task s))) = 0 /\
    at_ (acquired (st_S s) (st_baton_pos s) (t_DIR (st_task s)))
        (st_baton_pos s) = domain_sign (st_baton_pos s) /\
    (forall i, 0 <= i < 6 -> i <> st_baton_pos s ->
       i <> step_baton (st_baton_pos s) (t_DIR (st_task s)) ->
       at_ (acquired (st_S s) (st_baton_pos s) (t_DIR (st_task s))) i
       = at_ (st_S s) i)).
  { split; [apply acquired_at_new; assumption|].
    unfold acquired, released; split.
    - rewrite at_put_other by lia.
      apply at_put_same; rewrite HS; lia.
    - intros i Hi H1 H2; rewrite !at_put_other by lia; reflexivity. }
  destruct Hacq as (A1 & A2 & A3).
  destruct (tick_total c s Hwf) as (s' & r & Ht & Hsp).
  inversion Hsp; subst;
    repeat match goal with x := _ |- _ => subst x end;
    try lia;
    do 2 eexists; (split; [exact Ht|]);
    cbn [st_baton_pos st_S]; auto 6.
Qed.

Lemma tick_moves_one_step_witness :
  exists s' evs,
    tick (mkConfig 3 6) default_start = Ok (s', Moved evs) /\
    st_baton_pos s' = 1 /\ at_ (st_S s') 0 = 1.
Proof.
  destruct (tick_moves_one_step (mkConfig 3 6) default_start
              default_start_wf)
    as (s' & evs & Ht & Hpos & _ & _ & Hrel & _); [cbn; lia|].
  exists s', evs; split; [exact Ht|]; split; [exact Hpos|exact Hrel].
Defined.

(** Decay monotonicity: in every tick the levels of A, E and F, which no
    latch and no hesitation ever touches, go from [e] to [e - 1] if
    [e > 0] and stay otherwise; and in a tick that reports neither the
    mirror nor a hesitation the whole of [E] does. *)
Theorem decay_is_all_that_happens (c : config) (s : state) :
  well_formed s ->
  exists s' r,
    tick c s = Ok (s', r) /\
    (forall i, i = IDX "A" \/ i = 4 \/ i = 5 ->
               at_ (st_E s') i = dec (at_ (st_E s) i)) /\
    (count_ev is_ACT_MIRROR (events_of r) = 0%nat ->
     count_ev is_HESITATE (events_of r) = 0%nat ->
     st_E s' = decayed (st_E s)).
Proof.
  intros Hwf.
  destruct (tick_total c s Hwf) as (s' & r & Ht & Hsp).
  exists s', r; split; [exact Ht|].
  assert (HC : IDX "C" = 2) by reflexivity.
  assert (HA : IDX "A" = 0) by reflexivity.
  inversion Hsp as [ | | | Hpk Harr HD Hlb Hrb
                   | Hpk Harr HD Hlb | Hpk Harr HD Hlb ]; subst;
    repeat match goal with x := _ |- _ => subst x end;
    cbn [st_E events_of];
    try (split; [intros i _; apply at_decayed|intros _ _; reflexivity]).
  - destruct (arrives_true s Harr) as (Hnew & _ & _); rewrite Hnew.
    change (left (IDX "C")) with 1; change (right (IDX "C")) with 3.
    split.
    + intros i Hi; rewrite !at_put_other by (rewrite ?HC, ?HA in *; lia).
      apply at_decayed.
    + destruct (t_TTL (st_task s) - 1 >? 0); discriminate.
  - split; [|discriminate].
    intros i Hi; rewrite !at_put_other by (rewrite ?HC, ?HA in *; lia).
    apply at_decayed.
  - split; [|discriminate].
    intros i Hi; rewrite !at_put_other by (rewrite ?HC, ?HA in *; lia).
    apply at_decayed.
Qed.

Lemma decay_is_all_that_happens_witness :
  exists s' r,
    tick (mkConfig 3 6) (mirror_state 3 0) = Ok (s', r) /\
    at_ (st_E s') 5 = 0.
Proof.
  destruct (decay_is_all_that_happens (mkConfig 3 6) (mirror_state 3 0)
              (mirror_state_wf 3 0)) as (s' & r & Ht & Hd & _).
  exists s', r; split; [exact Ht|].
  rewrite (Hd 5) by auto; reflexivity.
Defined.

(** Every report is empty or opens with the one ARRIVE_C of the tick,
    followed by either the jump or the boundary pair; and an arrival is
    only reported with the baton on C and the task active. *)
Theorem reports_open_with_arrival (c : config) (s : state) :
  well_formed s ->
  exists s' r,
    tick c s = Ok (s', r) /\
    (events_of r = [] \/
     exists rest,
       events_of r = ARRIVE_C :: rest /\
       count_ev is_ARRIVE_C rest = 0%nat /\
       (count_ev is_JUMP rest + count_ev is_BOUNDARY rest = 1)%nat /\
       st_baton_pos s' = IDX "C" /\
       at_ (st_S s') (IDX "C") = 0 /\
       t_P (st_task s) = 1).
Proof.
  intros Hwf.
  pose proof (acquired_at_new (st_S s) (st_baton_pos s)
                (t_DIR (st_task s)) (wf_S s Hwf)) as H0.
  destruct (tick_total c s Hwf) as (s' & r & Ht & Hsp).
  exists s', r; split; [exact Ht|].
  inversion Hsp as [ | | Hpk Harr HD | Hpk Harr HD Hlb Hrb
                   | Hpk Harr HD Hlb | Hpk Harr HD Hlb ]; subst;
    repeat match goal with x := _ |- _ => subst x end;
    cbn [events_of st_baton_pos st_S]; auto.
  all: destruct (arrives_true s Harr) as (Hnew & _ & HP).
  all: right; eexists; split; [reflexivity|].
  all: rewrite Hnew in *.
  all: try (destruct (t_TTL (st_task s) - 1 >? 0)).
  all: repeat split; auto.
Qed.

Lemma reports_open_with_arrival_witness :
  exists s' r rest,
    tick (mkConfig 3 6) (attempt_state 0) = Ok (s', r) /\
    events_of r = ARRIVE_C :: rest.
Proof.
  destruct (reports_open_with_arrival (mkConfig 3 6) (attempt_state 0)
              (attempt_state_wf 0)) as (s' & r & Ht & Hev).
  exists s', r.
  destruct Hev as [Hnil|(rest & Hev & _)].
  - exfalso; vm_compute in Ht; injection Ht as <- <-; discriminate.
  - exists rest; split; assumption.
Defined.

(** ** Runs, beyond the claims *)

Lemma final_cons (s s1 : state) (r1 : report) (tr : list (state * report)) :
  final s ((s1, r1) :: tr) = final s1 tr.
Proof.
  unfold final; destruct tr as [|x tr]; [reflexivity|].
  change (last ((s1, r1) :: x :: tr) (s, Parked))
    with (last (x :: tr) (s, Parked)).
  rewrite (last_default _ x tr (s, Parked) (s1, Parked)); reflexivity.
Qed.

Lemma run_plus (c : config) (n m : nat) (s : state) :
  run c (n + m) s
  = (tr1 <- run c n s ;;
     tr2 <- run c m (final s tr1) ;;
     Ok (tr1 ++ tr2)).
Proof.
  revert s; induction n as [|n IH]; intros s.
  - cbn [Nat.add run bind]; unfold final; cbn [last fst].
    destruct (run c m s); reflexivity.
  - cbn [Nat.add run].
    destruct (tick c s) as [[s1 r1]|e]; [|reflexivity].
    cbn [bind fst]; rewrite IH.
    destruct (run c n s1) as [tr1|e]; [|reflexivity].
    cbn [bind]; rewrite final_cons.
    destruct (run c m (final s1 tr1)); reflexivity.
Qed.

(** A park of [p] ticks: the next [p] ticks all report PARK and leave the
    baton, [S], [buf] and the direction alone while the shadows decay [p]
    times; after them the park counter is 0, so the tick that follows
    moves. *)
Theorem park_lasts (c : config) (p : nat) :
  forall s, well_formed s -> t_PARK (st_task s) = Z.of_nat p ->
  exists tr,
    run c p s = Ok tr /\
    Forall (fun sr => snd sr = Parked) tr /\
    t_PARK (st_task (final s tr)) = 0 /\
    st_baton_pos (final s tr) = st_baton_pos s /\
    st_S (final s tr) = st_S s /\
    st_buf (final s tr) = st_buf s /\
    t_DIR (st_task (final s tr)) = t_DIR (st_task s) /\
    st_E (final s tr) = Nat.iter p decayed (st_E s).
Proof.
  induction p as [|p IH]; intros s Hwf Hpark.
  - exists []; repeat split; auto.
  - destruct (tick_total c s Hwf) as (s1 & r1 & Ht & Hsp).
    pose proof (tick_spec_well_formed c s s1 r1 Hwf Hsp) as Hwf1.
    tick_branches Hsp.
    match type of Ht with
    | tick c s = Ok (?s1, _) =>
        destruct (IH s1 Hwf1) as (tr & Hr & Hall & A & B & C & D & E & F);
          [cbn; lia|];
        exists ((s1, Parked) :: tr)
    end.
    cbn [run]; rewrite Ht; cbn [bind fst]; rewrite Hr; cbn [bind].
    rewrite final_cons.
    split; [reflexivity|]. split; [constructor; [reflexivity|exact Hall]|].
    cbn [st_task st_baton_pos st_S st_buf st_E t_DIR t_PARK] in *.
    repeat (split; [assumption|]).
    rewrite F, Nat.iter_succ_r; reflexivity.
Qed.

Lemma park_lasts_witness :
  exists tr,
    run (mkConfig 3 6) 2 parked_state = Ok tr /\
    t_PARK (st_task (final parked_state tr)) = 0 /\
    st_E (final parked_state tr) = [0; 0; 1; 0; 0; 0].
Proof.
  destruct (park_lasts (mkConfig 3 6) 2 parked_state parked_state_wf
              eq_refl) as (tr & Hr & _ & HP & _ & _ & _ & _ & HE).
  exists tr; split; [exact Hr|]; split; [exact HP|].
  rewrite HE; reflexivity.
Defined.

Lemma run_facts_well_formed (TTL : Z) (s : state) :
  run_facts TTL s -> well_formed s.
Proof. intros H; apply run_shape_well_formed, (rf_shape TTL s H). Qed.

Lemma reverse_dir_known (d : string) :
  d = "CW"%string \/ d = "CCW"%string ->
  reverse_dir d = "CW"%string \/ reverse_dir d = "CCW"%string.
Proof. intros [->| ->]; [right|left]; reflexivity. Qed.

Lemma run_facts_step (c : config) (TTL : Z) (s s' : state) (r : report) :
  run_facts TTL s -> tick_spec c s s' r ->
  run_facts TTL s' /\
  count_ev is_ACT_MIRROR (events_of r) = 0%nat /\
  count_ev is_DONE (events_of r) = 0%nat.
Proof.
  intros [Hsh [Hf Hp Hd HD HK HH] HP HT HE] Hsp.
  pose proof (run_shape_step c s s' r Hsh Hsp) as Hsh'.
  assert (HdE : forall i, 0 <= i < 6 -> i <> IDX "C" ->
                          at_ (decayed (st_E s)) i = 0)
    by (intros i Hi Hne; rewrite at_decayed, (HE i Hi Hne); reflexivity).
  assert (HputE : forall v i, 0 <= i < 6 -> i <> IDX "C" ->
                    at_ (put (decayed (st_E s)) (IDX "C") v) i = 0).
  { intros v i Hi Hne.
    assert (HC : IDX "C" = 2) by reflexivity.
    rewrite at_put_other by (rewrite ?HC in *; lia).
    apply HdE; assumption. }
  inversion Hsp as [ | | Hpk Harr HDj | Hpk Harr HDj Hlb Hrb
                   | Hpk Harr HDj Hlb | Hpk Harr HDj Hlb ]; subst;
    repeat match goal with x := _ |- _ => subst x end.
  4:{ pose proof (run_shape_no_success s Hsh Harr) as Hno; cbv zeta in Hno.
      rewrite Hlb, Hrb in Hno; discriminate. }
  all: split; [|split; reflexivity].
  all: constructor;
    [ exact Hsh'
    | constructor;
      cbn [st_task t_FAILCOUNT t_PARK t_DIR t_D t_K t_H];
      auto; try lia; apply reverse_dir_known; assumption
    | exact HP
    | reflexivity
    | cbn [st_E]; auto ].
Qed.

Lemma count_trace_zero (p : event -> bool) (tr : list (state * report)) :
  Forall (fun sr => count_ev p (events_of (snd sr)) = 0%nat) tr ->
  count_ev p (trace_events tr) = 0%nat.
Proof.
  induction 1 as [|sr tr Hsr _ IH]; [reflexivity|].
  rewrite trace_events_cons, count_ev_app; lia.
Qed.

(** Every run of [simulate], for every configuration, stays within
    [run_facts] and reports neither a mirror nor DONE. *)
Lemma simulate_run_facts (steps Hshadow Emax TTL : Z) :
  exists s0 tr,
    simulate steps Hshadow Emax TTL = Ok (s0, tr) /\
    run_facts TTL s0 /\
    Forall (fun sr => run_facts TTL (fst sr)) tr /\
    count_ev is_ACT_MIRROR (trace_events tr) = 0%nat /\
    count_ev is_DONE (trace_events tr) = 0%nat.
Proof.
  set (c := mkConfig Hshadow Emax).
  destruct (initial_state_shape TTL) as (s0 & H0 & Hsh & HE0 & Ht0).
  assert (HI0 : run_facts TTL s0).
  { constructor; try (rewrite Ht0; reflexivity); auto.
    - constructor; rewrite Ht0; cbn; auto; lia.
    - intros i Hi _; rewrite HE0.
      destruct (ring_cases _ Hi) as [->|[->|[->|[->|[->| ->]]]]];
        reflexivity. }
  destruct (run_preserves c (run_facts TTL) (run_facts_well_formed TTL)
              (fun s s' r Hs Hsp => proj1 (run_facts_step c TTL s s' r Hs Hsp))
              (Z.to_nat steps) s0 HI0) as (tr & Hr & _ & Hall).
  exists s0, tr; unfold simulate; rewrite H0; cbn [bind]; fold c.
  rewrite Hr; cbn [bind].
  split; [reflexivity|]. split; [exact HI0|]. split; [exact Hall|].
  split; apply count_trace_zero.
  - apply (run_reports c (run_facts TTL) (run_facts_well_formed TTL)
             (fun s s' r Hs Hsp => proj1 (run_facts_step c TTL s s' r Hs Hsp))
             (fun r => count_ev is_ACT_MIRROR (events_of r) = 0%nat)
             (fun s s' r Hs Hsp =>
                proj1 (proj2 (run_facts_step c TTL s s' r Hs Hsp)))
             (Z.to_nat steps) s0 tr HI0 Hr).
  - apply (run_reports c (run_facts TTL) (run_facts_well_formed TTL)
             (fun s s' r Hs Hsp => proj1 (run_facts_step c TTL s s' r Hs Hsp))
             (fun r => count_ev is_DONE (events_of r) = 0%nat)
             (fun s s' r Hs Hsp =>
                proj2 (proj2 (run_facts_step c TTL s s' r Hs Hsp)))
             (Z.to_nat steps) s0 tr HI0 Hr).
Qed.

(** The task never completes.  For every configuration, along the whole
    run no ACT attempt succeeds: no mirror and no DONE is ever reported,
    the task stays active and [TTL] stays at the configured budget. *)
Theorem task_never_completes (steps Hshadow Emax TTL : Z) :
  exists s0 tr,
    simulate steps Hshadow Emax TTL = Ok (s0, tr) /\
    count_ev is_ACT_MIRROR (trace_events tr) = 0%nat /\
    count_ev is_DONE (trace_events tr) = 0%nat /\
    Forall (fun s => t_P (st_task s) = 1 /\ t_TTL (st_task s) = TTL)
           (s0 :: map fst tr).
Proof.
  destruct (simulate_run_facts steps Hshadow Emax TTL)
    as (s0 & tr & Hsim & H0 & Hall & Hm & Hd).
  exists s0, tr; repeat (split; [assumption|]).
  constructor; [split; [apply (rf_P TTL s0 H0)|apply (rf_TTL TTL s0 H0)]|].
  rewrite Forall_map; eapply Forall_impl; [|exact Hall].
  intros sr Hsr; split; [apply (rf_P TTL _ Hsr)|apply (rf_TTL TTL _ Hsr)].
Qed.

(** Along every run the task counters stay in range: the failure count in
    [0, 3), the park counter in [0, 2], the jump flag 0 or 1, the
    direction CW or CCW, with [K = 3] and [H = 2] throughout. *)
Theorem counters_stay_in_range (steps Hshadow Emax TTL : Z) :
  exists s0 tr,
    simulate steps Hshadow Emax TTL = Ok (s0, tr) /\
    Forall counters_in_range (s0 :: map fst tr).
Proof.
  destruct (simulate_run_facts steps Hshadow Emax TTL)
    as (s0 & tr & Hsim & H0 & Hall & _).
  exists s0, tr; split; [assumption|].
  constructor; [apply (rf_counters TTL s0 H0)|].
  rewrite Forall_map; eapply Forall_impl; [|exact Hall].
  intros sr Hsr; apply (rf_counters TTL _ Hsr).
Qed.

(** Along every run only C is ever shadowed: the level of every other tile
    is 0 in every snapshot, and [buf] differs from the domain signs at C
    at most. *)
Theorem only_C_is_shadowed (steps Hshadow Emax TTL : Z) :
  exists s0 tr,
    simulate steps Hshadow Emax TTL = Ok (s0, tr) /\
    Forall (fun s => forall i, 0 <= i < 6 -> i <> IDX "C" ->
                       at_ (st_E s) i = 0 /\
                       at_ (st_buf s) i = domain_sign i)
           (s0 :: map fst tr).
Proof.
  destruct (simulate_run_facts steps Hshadow Emax TTL)
    as (s0 & tr & Hsim & H0 & Hall & _).
  assert (Hone : forall s, run_facts TTL s ->
            forall i, 0 <= i < 6 -> i <> IDX "C" ->
              at_ (st_E s) i = 0 /\ at_ (st_buf s) i = domain_sign i).
  { intros s Hs i Hi Hne; split; [apply (rf_E TTL s Hs); assumption|].
    destruct (sh_buf s (rf_shape TTL s Hs)) as (b & _ & ->).
    assert (HC : IDX "C" = 2) by reflexivity.
    rewrite at_put_other by (rewrite ?HC in *; lia).
    destruct (ring_cases _ Hi) as [->|[->|[->|[->|[->| ->]]]]];
      reflexivity. }
  exists s0, tr; split; [assumption|].
  constructor; [apply Hone, H0|].
  rewrite Forall_map; eapply Forall_impl; [|exact Hall].
  intros sr Hsr; apply Hone, Hsr.
Qed.

Lemma dec_le_zero (e : Z) : e <= 1 -> dec e <= 0.
Proof. unfold dec; destruct (Z.gtb_spec e 0); lia. Qed.

Lemma hesitation_spent_step (c : config) (TTL : Z) (s s' : state)
    (r : report) :
  run_facts TTL s /\ hesitation_spent s -> tick_spec c s s' r ->
  run_facts TTL s' /\ hesitation_spent s'.
Proof.
  intros [Hf [Hle Hoff]] Hsp.
  split; [exact (proj1 (run_facts_step c TTL s s' r Hf Hsp))|].
  pose proof (run_facts_well_formed TTL s Hf) as Hwf.
  pose proof (wf_E s Hwf) as HE; pose proof (wf_pos s Hwf) as Hp.
  pose proof (dec_le_zero _ Hle) as Hd.
  assert (HC : IDX "C" = 2) by reflexivity.
  unfold hesitation_spent.
  inversion Hsp as [ | | Hpk Harr HDj | Hpk Harr HDj Hlb Hrb
                   | Hpk Harr HDj Hlb | Hpk Harr HDj Hlb ]; subst;
    repeat match goal with x := _ |- _ => subst x end;
    cbn [st_E st_baton_pos]; rewrite ?at_decayed; try (split; intros; lia).
  - pose proof (run_shape_no_success s (rf_shape _ s Hf) Harr) as Hno.
    cbv zeta in Hno; rewrite Hlb, Hrb in Hno; discriminate.
  - destruct (arrives_true s Harr) as (Hnew & _ & _).
    pose proof (step_baton_moves (st_baton_pos s) (t_DIR (st_task s)) Hp).
    assert (Hoff' : at_ (st_E s) (IDX "C") <= 0)
      by (apply Hoff; congruence).
    rewrite at_put_same by (rewrite decayed_length, HE, HC; lia).
    rewrite ?at_decayed.
    assert (dec (at_ (st_E s) (IDX "C")) <= 0) by (apply dec_le_zero; lia).
    split; [lia|intros Hx; congruence].
  - destruct (arrives_true s Harr) as (Hnew & _ & _).
    pose proof (step_baton_moves (st_baton_pos s) (t_DIR (st_task s)) Hp).
    rewrite at_put_same by (rewrite decayed_length, HE, HC; lia).
    rewrite ?at_decayed.
    assert (dec (at_ (st_E s) (IDX "C")) <= 0) by (apply dec_le_zero; lia).
    split; [lia|intros Hx; congruence].
Qed.

(** Hesitation never accumulates.  Along every run, for every
    configuration, the level at C is at most 1 in every snapshot, and it is
    spent (at most 0) whenever the baton is not on C: the cap [Emax] is
    never what limits it once [Emax >= 1]. *)
Theorem hesitation_never_accumulates (steps Hshadow Emax TTL : Z) :
  exists s0 tr,
    simulate steps Hshadow Emax TTL = Ok (s0, tr) /\
    Forall hesitation_spent (s0 :: map fst tr).
Proof.
  set (c := mkConfig Hshadow Emax).
  destruct (simulate_run_facts steps Hshadow Emax TTL)
    as (s0 & tr & Hsim & H0 & _).
  exists s0, tr; split; [exact Hsim|].
  assert (Hs0 : st_E s0 = [0; 0; 0; 0; 0; 0]).
  { unfold simulate in Hsim.
    destruct (initial_state_shape TTL) as (s0' & Hi & _ & HE0 & _).
    rewrite Hi in Hsim; cbn [bind] in Hsim.
    destruct (run _ _ s0'); [|discriminate].
    cbn [bind] in Hsim; injection Hsim as -> _; exact HE0. }
  assert (HI0 : run_facts TTL s0 /\ hesitation_spent s0).
  { split; [exact H0|]; unfold hesitation_spent; rewrite Hs0.
    split; [|intros _]; vm_compute; discriminate. }
  destruct (run_preserves c
              (fun s => run_facts TTL s /\ hesitation_spent s)
              (fun s Hs => run_facts_well_formed TTL s (proj1 Hs))
              (hesitation_spent_step c TTL)
              (Z.to_nat steps) s0 HI0) as (tr' & Hr & _ & Hall).
  assert (tr' = tr).
  { unfold simulate in Hsim.
    destruct (initial_state TTL) as [s0'|e]; [|discriminate].
    cbn [bind] in Hsim.
    destruct (run (mkConfig Hshadow Emax) (Z.to_nat steps) s0')
      as [tr0|e] eqn:Hr0; [|discriminate].
    cbn [bind] in Hsim; injection Hsim as -> ->.
    fold c in Hr0; congruence. }
  subst tr'.
  constructor; [apply HI0|].
  rewrite Forall_map; eapply Forall_impl; [|exact Hall].
  intros sr Hsr; apply Hsr.
Qed.

Lemma trace_events_app (tr1 tr2 : list (state * report)) :
  trace_events (tr1 ++ tr2) = trace_events tr1 ++ trace_events tr2.
Proof. unfold trace_events; rewrite map_app, concat_app; reflexivity. Qed.

Lemma no_jump_after_jump (c : config) (s s' : state) (r : report) :
  run_shape s /\ t_D (st_task s) = 0 -> tick_spec c s s' r ->
  (run_shape s' /\ t_D (st_task s') = 0) /\
  count_ev is_JUMP (events_of r) = 0%nat.
Proof.
  intros [Hsh HD] Hsp.
  pose proof (run_shape_step c s s' r Hsh Hsp) as Hsh'.
  inversion Hsp as [ | | Hpk Harr HDj | Hpk Harr HDj Hlb Hrb
                   | Hpk Harr HDj Hlb | Hpk Harr HDj Hlb ]; subst;
    repeat match goal with x := _ |- _ => subst x end;
    try (split; [split; [exact Hsh'|exact HD]|reflexivity]).
  - rewrite HD in HDj; discriminate.
  - pose proof (run_shape_no_success s Hsh Harr) as Hno; cbv zeta in Hno.
    rewrite Hlb, Hrb in Hno; discriminate.
Qed.

(** The jump happens once.  For every configuration a run of at least two
    ticks reports exactly one JUMP, in tick 2, and a shorter run none:
    since no ACT attempt of a run succeeds, the task is never re-armed. *)
Theorem jump_happens_once (steps Hshadow Emax TTL : Z) :
  exists s0 tr,
    simulate steps Hshadow Emax TTL = Ok (s0, tr) /\
    count_ev is_JUMP (trace_events tr)
    = (if 2 <=? steps then 1%nat else 0%nat) /\
    count_ev is_JUMP (trace_events (firstn 2 tr))
    = count_ev is_JUMP (trace_events tr).
Proof.
  set (c := mkConfig Hshadow Emax).
  unfold simulate; fold c.
  destruct (initial_state_shape TTL) as (s0 & H0 & Hsh0 & HE0 & Ht0).
  rewrite H0; cbn [bind].
  assert (Hs0 : s0 = mkState [0; 1; 1; -1; -1; -1] [0; 0; 0; 0; 0; 0]
                       [1; 1; 1; -1; -1; -1] 0 (new_Task TTL))
    by (change (initial_state TTL)
          with (Ok (mkState [0; 1; 1; -1; -1; -1] [0; 0; 0; 0; 0; 0]
                      [1; 1; 1; -1; -1; -1] 0 (new_Task TTL))) in H0;
        injection H0 as <-; reflexivity).
  destruct (Z.leb_spec 2 steps) as [Hge|Hlt].
  - replace (Z.to_nat steps) with (2 + (Z.to_nat steps - 2))%nat by lia.
    rewrite run_plus.
    assert (Hrun2 : exists s1 s2,
              run c 2 s0 = Ok [(s1, Moved []); (s2, Moved [ARRIVE_C; JUMP])]
              /\ t_D (st_task s2) = 0 /\ run_shape s2).
    { do 2 eexists; split; [rewrite Hs0; vm_compute; reflexivity|].
      split; [reflexivity|].
      constructor; cbn; try reflexivity; try lia.
      exists 1; split; [left|]; reflexivity. }
    destruct Hrun2 as (s1 & s2 & Hr2 & HD2 & Hsh2).
    rewrite Hr2; cbn [bind]; rewrite final_cons, final_cons.
    unfold final at 1; cbn [last fst].
    destruct (run_preserves c
                (fun s => run_shape s /\ t_D (st_task s) = 0)
                (fun s Hs => run_shape_well_formed s (proj1 Hs))
                (fun s s' r Hs Hsp => proj1 (no_jump_after_jump c s s' r
                                               Hs Hsp))
                (Z.to_nat steps - 2) s2 (conj Hsh2 HD2))
      as (tr2 & Hrt & _ & _).
    pose proof (run_reports c
                  (fun s => run_shape s /\ t_D (st_task s) = 0)
                  (fun s Hs => run_shape_well_formed s (proj1 Hs))
                  (fun s s' r Hs Hsp => proj1 (no_jump_after_jump c s s' r
                                                 Hs Hsp))
                  (fun r => count_ev is_JUMP (events_of r) = 0%nat)
                  (fun s s' r Hs Hsp => proj2 (no_jump_after_jump c s s' r
                                                 Hs Hsp))
                  (Z.to_nat steps - 2) s2 tr2 (conj Hsh2 HD2) Hrt) as Hno.
    rewrite Hrt; cbn [bind].
    do 2 eexists; split; [reflexivity|].
    rewrite trace_events_app, count_ev_app.
    rewrite (count_trace_zero _ _ Hno).
    split; reflexivity.
  - destruct (Z.to_nat steps) as [|[|n]] eqn:Hn; [| |lia].
    + do 2 eexists; split; [reflexivity|split; reflexivity].
    + do 2 eexists; split; [rewrite Hs0; vm_compute; reflexivity|].
      split; reflexivity.
Qed.

(** ** Rendering *)

Lemma replace_nth_length (A : Type) (l : list A) (n : nat) (v : A) :
  List.length (replace_nth l n v) = List.length l.
Proof.
  revert n; induction l as [|x r IH]; intros [|m]; simpl; auto.
Qed.

Lemma nth_replace_same (A : Type) (l : list A) (n : nat) (v d : A) :
  (n < List.length l)%nat -> nth n (replace_nth l n v) d = v.
Proof.
  revert n; induction l as [|x r IH]; intros [|m] Hn; simpl in *;
    try lia; auto.
  apply IH; lia.
Qed.

Lemma nth_replace_other (A : Type) (l : list A) (n m : nat) (v d : A) :
  n <> m -> nth m (replace_nth l n v) d = nth m l d.
Proof.
  revert n m; induction l as [|x r IH]; intros [|n] [|m] Hnm; simpl;
    try congruence; auto.
Qed.

Lemma Forall_replace_nth (A : Type) (P : A -> Prop) (l : list A) (n : nat)
    (v : A) :
  Forall P l -> P v -> Forall P (replace_nth l n v).
Proof.
  revert n; induction l as [|x r IH]; intros [|n] HF Hv; simpl; auto;
    inversion HF; subst; constructor; auto.
Qed.

Lemma item_in_range (A : Type) (l : list A) (i : Z) (d : A) :
  0 <= i < Z.of_nat (List.length l) -> item l i = Ok (nth (Z.to_nat i) l d).
Proof.
  intros Hi; unfold item.
  rewrite norm_index_in_range by assumption; cbn [bind].
  rewrite (nth_error_nth' l d) by lia; reflexivity.
Qed.

Lemma set_item_in_range (A : Type) (l : list A) (i : Z) (v : A) :
  0 <= i < Z.of_nat (List.length l) ->
  set_item l i v = Ok (replace_nth l (Z.to_nat i) v).
Proof.
  intros Hi; unfold set_item.
  rewrite norm_index_in_range by assumption; reflexivity.
Qed.

Lemma paint_at_spec (cv : canvas) (r c : nat) (ch : string) :
  paint_at cv r c ch = replace_nth cv r (replace_nth (nth r cv []) c ch).
Proof.
  revert r; induction cv as [|row rest IH]; intros [|r]; cbn;
    try reflexivity.
  rewrite IH; reflexivity.
Qed.

Lemma shape_row (cv : canvas) (r : Z) :
  canvas_shape cv -> 0 <= r < 13 ->
  List.length (nth (Z.to_nat r) cv []) = 28%nat.
Proof.
  intros [Hlen Hrows] Hr.
  rewrite Forall_forall in Hrows; apply Hrows, nth_In; lia.
Qed.

Lemma set_cell_ok (cv : canvas) (r c : Z) (ch : string) :
  canvas_shape cv -> 0 <= r < 13 -> 0 <= c < 28 ->
  set_cell cv r c ch = Ok (paint cv r c ch).
Proof.
  intros Hsh Hr Hc; unfold set_cell, paint; rewrite paint_at_spec.
  pose proof (shape_row cv r Hsh Hr) as Hrow.
  destruct Hsh as [Hlen _].
  rewrite (item_in_range _ cv r []) by (rewrite Hlen; lia); cbn [bind].
  rewrite set_item_in_range by (rewrite Hrow; lia); cbn [bind].
  apply set_item_in_range; rewrite Hlen; lia.
Qed.

Lemma paint_shape (cv : canvas) (r c : Z) (ch : string) :
  canvas_shape cv -> 0 <= r < 13 -> canvas_shape (paint cv r c ch).
Proof.
  intros Hsh Hr; pose proof (shape_row cv r Hsh Hr) as Hrow.
  destruct Hsh as [Hlen Hrows]; unfold paint; rewrite paint_at_spec; split.
  - rewrite replace_nth_length; exact Hlen.
  - apply Forall_replace_nth; [exact Hrows|].
    rewrite replace_nth_length; exact Hrow.
Qed.

Lemma cell_paint (cv : canvas) (r c : Z) (ch : string) (r' c' : Z) :
  canvas_shape cv -> 0 <= r < 13 -> 0 <= c < 28 -> 0 <= r' -> 0 <= c' ->
  cell (paint cv r c ch) r' c'
  = if (r' =? r) && (c' =? c) then ch else cell cv r' c'.
Proof.
  intros Hsh Hr Hc Hr' Hc'; pose proof (shape_row cv r Hsh Hr) as Hrow.
  destruct Hsh as [Hlen _]; unfold cell, paint; rewrite paint_at_spec.
  destruct (Z.eqb_spec r' r) as [->|Hne]; cbn [andb].
  - rewrite nth_replace_same by lia.
    destruct (Z.eqb_spec c' c) as [->|Hnc].
    + apply nth_replace_same; lia.
    + apply nth_replace_other; lia.
  - rewrite nth_replace_other by lia; reflexivity.
Qed.

Lemma write_cells_ok (cells : list string) :
  forall (cv : canvas) (r c : Z),
  canvas_shape cv -> 0 <= r < 13 -> 0 <= c ->
  c + Z.of_nat (List.length cells) <= 28 ->
  write_cells cv r c cells = Ok (paint_cells cv r c cells) /\
  canvas_shape (paint_cells cv r c cells) /\
  forall r' c', 0 <= r' -> 0 <= c' ->
    cell (paint_cells cv r c cells) r' c'
    = if (r' =? r) && (c <=? c') && (c' <? c + Z.of_nat (List.length cells))
      then nth (Z.to_nat (c' - c)) cells " "%string
      else cell cv r' c'.
Proof.
  induction cells as [|ch rest IH]; intros cv r c Hsh Hr Hc Hfit.
  - cbn [write_cells paint_cells List.length].
    split; [reflexivity|]. split; [assumption|].
    intros r' c' _ _.
    destruct ((r' =? r) && (c <=? c')) eqn:E; cbn [andb]; auto.
    destruct (Z.ltb_spec c' (c + Z.of_nat 0)); [|reflexivity].
    apply andb_prop in E as [_ E]; apply Z.leb_le in E; lia.
  - cbn [List.length] in Hfit.
    cbn [write_cells paint_cells].
    rewrite set_cell_ok by (auto; lia); cbn [bind].
    destruct (IH (paint cv r c ch) r (c + 1)) as (Hw & Hs & Hcell);
      [apply paint_shape; assumption|assumption|lia|lia|].
    split; [exact Hw|]. split; [exact Hs|].
    intros r' c' Hr' Hc'; rewrite Hcell by assumption.
    rewrite cell_paint by (auto; lia).
    cbn [List.length].
    destruct (Z.eqb_spec r' r) as [->|Hne]; cbn [andb]; [|reflexivity].
    destruct (Z.leb_spec (c + 1) c'), (Z.leb_spec c c'),
             (Z.ltb_spec c' (c + 1 + Z.of_nat (List.length rest))),
             (Z.ltb_spec c' (c + Z.of_nat (S (List.length rest)))),
             (Z.eqb_spec c' c); cbn [andb]; try lia; try reflexivity.
    + replace (Z.to_nat (c' - c)) with (S (Z.to_nat (c' - (c + 1)))) by lia.
      reflexivity.
    + subst c'; replace (c - c) with 0 by lia; reflexivity.
Qed.

Lemma paint_cells_shape (cells : list string) (cv : canvas) (r c : Z) :
  canvas_shape cv -> 0 <= r < 13 -> 0 <= c ->
  c + Z.of_nat (List.length cells) <= 28 ->
  canvas_shape (paint_cells cv r c cells).
Proof. intros; apply write_cells_ok; assumption. Qed.

Lemma blank_canvas_shape : canvas_shape blank_canvas.
Proof.
  split; [reflexivity|].
  unfold blank_canvas; apply Forall_forall; intros row Hin.
  apply repeat_spec in Hin; subst row; reflexivity.
Qed.

Lemma s_char_trit (v : Z) : trit v -> s_char v = Ok (sign_char v).
Proof. intros [->|[->| ->]]; reflexivity. Qed.

Lemma layout_items_fit (it : Z * (Z * Z)) :
  In it layout_items ->
  0 <= fst it < 6 /\ 0 <= fst (snd it) < 13 /\
  0 <= snd (snd it) /\ snd (snd it) + 8 <= 28.
Proof.
  intros Hin; cbn in Hin.
  repeat (destruct Hin as [<-|Hin]; [cbn; lia|]); contradiction.
Qed.

Lemma draw_tile_ok (S E buf : list Z) (it : Z * (Z * Z)) (cv : canvas) :
  List.length S = 6%nat -> List.length E = 6%nat ->
  List.length buf = 6%nat -> Forall trit S -> Forall trit buf ->
  In it layout_items -> canvas_shape cv ->
  draw_tile S E buf it cv
  = Ok (paint_cells cv (fst (snd it)) (snd (snd it)) (mark S E buf (fst it)))
  /\ canvas_shape (paint_cells cv (fst (snd it)) (snd (snd it))
                     (mark S E buf (fst it))).
Proof.
  intros HS HE Hb HtS Htb Hin Hsh.
  destruct (layout_items_fit it Hin) as (Hi & Hr & Hc & Hfit).
  unfold draw_tile.
  rewrite (item_in_range _ TILES (fst it) EmptyString) by (cbn; lia).
  cbn [bind].
  rewrite getitem_in_range by (rewrite HS; lia); cbn [bind].
  rewrite s_char_trit by (apply at_trit; [assumption|rewrite HS; lia]).
  cbn [bind].
  rewrite getitem_in_range by (rewrite HE; lia); cbn [bind].
  rewrite getitem_in_range by (rewrite Hb; lia); cbn [bind].
  rewrite s_char_trit by (apply at_trit; [assumption|rewrite Hb; lia]).
  cbn [bind].
  destruct (write_cells_ok (mark S E buf (fst it)) cv (fst (snd it))
              (snd (snd it)) Hsh Hr Hc) as (Hw & Hs & _); [cbn; lia|].
  split; [exact Hw|exact Hs].
Qed.

Lemma draw_tiles_ok (S E buf : list Z) (items : list (Z * (Z * Z))) :
  List.length S = 6%nat -> List.length E = 6%nat ->
  List.length buf = 6%nat -> Forall trit S -> Forall trit buf ->
  (forall it, In it items -> In it layout_items) ->
  forall cv, canvas_shape cv ->
  let drawn :=
    fold_left (fun cv it => paint_cells cv (fst (snd it)) (snd (snd it))
                              (mark S E buf (fst it))) items cv in
  for_in items (draw_tile S E buf) cv = Ok drawn /\ canvas_shape drawn.
Proof.
  intros HS HE Hb HtS Htb.
  induction items as [|it items IH]; intros Hall cv Hsh; cbn zeta.
  - split; [reflexivity|exact Hsh].
  - destruct (draw_tile_ok S E buf it cv HS HE Hb HtS Htb
                (Hall it (or_introl eq_refl)) Hsh) as (Hd & Hs).
    cbn [for_in fold_left]; rewrite Hd; cbn [bind].
    apply IH; [intros it' Hin; apply Hall; right; exact Hin|exact Hs].
Qed.

Lemma layout_in_range (k : Z) :
  0 <= k < 6 ->
  layout k = Ok (layout_value k) /\
  0 <= fst (layout_value k) <= 8 /\ 5 <= snd (layout_value k) <= 14.
Proof.
  intros Hk.
  destruct (ring_cases k Hk) as [->|[->|[->|[->|[->| ->]]]]];
    cbn; repeat split; lia.
Qed.

(** The label has at most four characters more than the direction. *)
Lemma label_length (d : string) :
  (List.length (chars ("DIR=" ++ d)) <= 4 + List.length (chars d))%nat.
Proof.
  unfold chars; cbn [String.append split_continuation fst snd].
  change (is_continuation "D") with false.
  change (is_continuation "I") with false.
  change (is_continuation "R") with false.
  change (is_continuation "=") with false.
  cbn [fst snd].
  destruct (split_continuation d) as [k cells]; cbn [fst snd].
  destruct k; cbn [List.length]; lia.
Qed.

(** A string has at most as many characters as bytes, and exactly as
    many when it has no continuation byte, as ASCII text. *)
Lemma chars_length_le (d : string) :
  (List.length (chars d) <= String.length d)%nat.
Proof.
  assert (H : (List.length (snd (split_continuation d))
               + String.length (fst (split_continuation d))
               <= String.length d)%nat).
  { induction d as [|a d IH]; [cbn; lia|].
    cbn [split_continuation]; destruct (is_continuation a);
      cbn [fst snd List.length String.length] in *; lia. }
  unfold chars; destruct (split_continuation d) as [k cells].
  cbn [fst snd] in *; destruct k; cbn [List.length String.length] in *; lia.
Qed.

(** On renderable data [render_canvas] is the pure [canvas_of], a canvas of
    13 rows of 28 cells. *)
Lemma render_canvas_ok (s : state) :
  renderable s ->
  render_canvas (st_S s) (st_E s) (st_buf s) (st_baton_pos s)
    (t_DIR (st_task s)) = Ok (canvas_of s) /\
  canvas_shape (tiles_drawn (st_S s) (st_E s) (st_buf s)) /\
  canvas_shape
    (markers_drawn (st_S s) (st_E s) (st_buf s) (st_baton_pos s)) /\
  canvas_shape (canvas_of s).
Proof.
  intros [HS HE Hb HtS Htb Hp Hd].
  assert (Htiles :
            for_in layout_items (draw_tile (st_S s) (st_E s) (st_buf s))
                   blank_canvas
            = Ok (tiles_drawn (st_S s) (st_E s) (st_buf s)) /\
            canvas_shape (tiles_drawn (st_S s) (st_E s) (st_buf s)))
    by exact (draw_tiles_ok (st_S s) (st_E s) (st_buf s) layout_items
                HS HE Hb HtS Htb (fun it H => H) blank_canvas
                blank_canvas_shape).
  destruct Htiles as (Hdraw & Hsh1).
  destruct (layout_in_range _ Hp) as (Hlay & Hbr & Hbc).
  assert (Hsh2 : canvas_shape
                   (paint (tiles_drawn (st_S s) (st_E s) (st_buf s))
                      (Z.max (fst (layout_value (st_baton_pos s)) - 2) 0)
                      (snd (layout_value (st_baton_pos s)) + 1) "B"))
    by (apply paint_shape; [assumption|lia]).
  assert (Hsh3 : canvas_shape
                   (markers_drawn (st_S s) (st_E s) (st_buf s)
                      (st_baton_pos s)))
    by (apply paint_shape; [assumption|lia]).
  assert (Hlen : Z.of_nat (List.length (chars ("DIR=" ++ t_DIR (st_task s))))
                 <= 28).
  { pose proof (label_length (t_DIR (st_task s))); lia. }
  destruct (write_cells_ok (chars ("DIR=" ++ t_DIR (st_task s)))
              (markers_drawn (st_S s) (st_E s) (st_buf s) (st_baton_pos s))
              11 0 Hsh3) as (Hw & Hsh4 & _); try lia.
  unfold render_canvas; rewrite Hdraw; cbn [bind].
  rewrite Hlay; cbn [bind].
  rewrite set_cell_ok by (auto; lia); cbn [bind].
  rewrite set_cell_ok by (auto; lia); cbn [bind].
  split; [exact Hw|]. split; [exact Hsh1|]. split; [exact Hsh3|exact Hsh4].
Qed.

Lemma bind_Ok (A B : Type) (a : A) (k : A -> py B) : bind (Ok a) k = k a.
Proof. reflexivity. Qed.

Lemma cell_paint_cells (cells : list string) (cv : canvas) (r c r' c' : Z) :
  canvas_shape cv -> 0 <= r < 13 -> 0 <= c ->
  c + Z.of_nat (List.length cells) <= 28 -> 0 <= r' -> 0 <= c' ->
  cell (paint_cells cv r c cells) r' c'
  = if (r' =? r) && (c <=? c') && (c' <? c + Z.of_nat (List.length cells))
    then nth (Z.to_nat (c' - c)) cells " "%string
    else cell cv r' c'.
Proof.
  intros Hsh Hr Hc Hfit Hr' Hc'.
  apply (write_cells_ok cells cv r c Hsh Hr Hc Hfit); assumption.
Qed.

Lemma renderable_default_start : renderable default_start.
Proof.
  constructor; try reflexivity.
  - repeat (apply Forall_cons; [unfold trit; auto|]); apply Forall_nil.
  - repeat (apply Forall_cons; [unfold trit; auto|]); apply Forall_nil.
  - cbn; lia.
  - vm_compute; lia.
Defined.

(** On renderable data [render_circle] raises nothing, and the canvas it
    joins still has the 13 rows of 28 cells it started with: no write
    falls outside the canvas. *)
Theorem render_keeps_shape (s : state) :
  renderable s ->
  exists cv out,
    render_canvas (st_S s) (st_E s) (st_buf s) (st_baton_pos s)
      (t_DIR (st_task s)) = Ok cv /\
    canvas_shape cv /\
    render_state s = Ok out.
Proof.
  intros Hr.
  destruct (render_canvas_ok s Hr) as (Hcv & _ & _ & Hsh).
  exists (canvas_of s); eexists.
  split; [exact Hcv|]. split; [exact Hsh|].
  unfold render_state, render_circle; rewrite Hcv, bind_Ok; reflexivity.
Qed.

Lemma render_keeps_shape_witness :
  exists out, render_state default_start = Ok out.
Proof.
  destruct (render_keeps_shape default_start renderable_default_start)
    as (cv & out & _ & _ & Hout).
  exists out; exact Hout.
Defined.

Lemma sign_is_trit (v : Z) : is_sign v -> trit v.
Proof. unfold trit; intros [->| ->]; auto. Qed.

Lemma run_facts_renderable (TTL : Z) (s : state) :
  run_facts TTL s -> renderable s.
Proof.
  intros [[Hp HS HE (b & Hb & Hbuf) _ _] [_ _ Hd _ _ _] _ _ _].
  constructor; auto.
  - rewrite HS, put_length; reflexivity.
  - rewrite Hbuf, put_length; reflexivity.
  - rewrite HS.
    destruct (ring_cases _ Hp) as [->|[->|[->|[->|[->| ->]]]]];
      repeat (apply Forall_cons; [unfold trit; auto|]); apply Forall_nil.
  - rewrite Hbuf.
    repeat (apply Forall_cons;
            [first [apply sign_is_trit; exact Hb|unfold trit; auto]|]);
      apply Forall_nil.
  - destruct Hd as [->| ->]; vm_compute; lia.
Qed.

(** Printing never fails during a run: for every configuration, the
    initial state and every snapshot of [simulate] are rendered by
    [render_circle] without an exception. *)
Theorem every_snapshot_renders (steps Hshadow Emax TTL : Z) :
  exists s0 tr,
    simulate steps Hshadow Emax TTL = Ok (s0, tr) /\
    Forall (fun s => exists out, render_state s = Ok out)
           (s0 :: map fst tr).
Proof.
  destruct (simulate_run_facts steps Hshadow Emax TTL)
    as (s0 & tr & Hsim & H0 & Hall & _).
  assert (Hone : forall s, run_facts TTL s ->
                           exists out, render_state s = Ok out).
  { intros s Hs.
    destruct (render_canvas_ok s (run_facts_renderable TTL s Hs))
      as (Hcv & _).
    eexists; unfold render_state, render_circle.
    rewrite Hcv, bind_Ok; reflexivity. }
  exists s0, tr; split; [exact Hsim|].
  constructor; [apply Hone, H0|].
  rewrite Forall_map; eapply Forall_impl; [|exact Hall].
  intros sr Hsr; apply Hone, Hsr.
Qed.

Lemma layout_missing (k : Z) : ~ 0 <= k < 6 -> layout k = Raise KeyError.
Proof.
  intros Hk; unfold layout, layout_items; cbn [dict_get].
  repeat match goal with
         | |- context [k =? ?n] => destruct (Z.eqb_spec k n); [lia|]
         end.
  reflexivity.
Qed.

(** A baton position that is not a key of [layout] makes [render_circle]
    raise [KeyError], also where the lists would accept it as an index:
    the tiles are drawn first and the dictionary lookup then fails. *)
Theorem render_unknown_baton (S E buf : list Z) (baton_pos : Z)
    (direction : string) :
  List.length S = 6%nat -> List.length E = 6%nat ->
  List.length buf = 6%nat -> Forall trit S -> Forall trit buf ->
  ~ 0 <= baton_pos < 6 ->
  render_circle S E buf baton_pos direction = Raise KeyError.
Proof.
  intros HS HE Hb HtS Htb Hk.
  unfold render_circle, render_canvas.
  rewrite (proj1 (draw_tiles_ok S E buf layout_items HS HE Hb HtS Htb
                    (fun it H => H) blank_canvas blank_canvas_shape)).
  rewrite bind_Ok, layout_missing by assumption; reflexivity.
Qed.

Lemma render_unknown_baton_witness :
  render_circle [1; 1; 1; -1; -1; 0] [0; 0; 0; 0; 0; 0]
                [1; 1; 1; -1; -1; -1] (-1) "CW"
  = Raise KeyError.
Proof.
  apply render_unknown_baton; try reflexivity; try lia.
  - repeat (apply Forall_cons; [unfold trit; auto|]); apply Forall_nil.
  - repeat (apply Forall_cons; [unfold trit; auto|]); apply Forall_nil.
Defined.

Lemma label_fits (s : state) :
  renderable s ->
  0 + Z.of_nat (List.length (chars ("DIR=" ++ t_DIR (st_task s)))) <= 28.
Proof.
  intros Hr; pose proof (rd_dir s Hr).
  pose proof (label_length (t_DIR (st_task s))); lia.
Qed.

(** Below the label row the canvas is what the tiles and the markers
    drew. *)
Lemma cell_canvas_of (s : state) (r c : Z) :
  renderable s -> 0 <= r -> r <> 11 -> 0 <= c ->
  cell (canvas_of s) r c
  = cell (markers_drawn (st_S s) (st_E s) (st_buf s) (st_baton_pos s)) r c.
Proof.
  intros Hr Hr0 Hr11 Hc.
  destruct (render_canvas_ok s Hr) as (_ & _ & Hsh & _).
  unfold canvas_of.
  rewrite cell_paint_cells
    by (auto using label_fits; lia).
  destruct (Z.eqb_spec r 11); [contradiction|reflexivity].
Qed.

(** The markers never land on a tile name, a polarity, a shadow or a
    buffer sign. *)
Lemma cell_markers_data (S E buf : list Z) (pos i r c : Z) :
  0 <= pos < 6 -> In (i, (r, c)) layout_items ->
  let cv := markers_drawn S E buf pos in
  cell cv r c = nth 0 (mark S E buf i) " "%string /\
  cell cv r (c + 2) = nth 2 (mark S E buf i) " "%string /\
  cell cv r (c + 3) = nth 3 (mark S E buf i) " "%string /\
  cell cv r (c + 6) = nth 6 (mark S E buf i) " "%string.
Proof.
  intros Hp Hin cv; subst cv; cbn in Hin.
  destruct (ring_cases pos Hp) as [->|[->|[->|[->|[->| ->]]]]];
    repeat (destruct Hin as [Hin|Hin];
            [injection Hin as <- <- <-; repeat split; reflexivity|]);
    contradiction.
Qed.

(** The rendering shows the state.  For every tile the canvas holds, at
    the tile's place in [layout], its name, then (two cells on) the
    character of its committed value, the halo of its shadow level and
    (six cells on) the character of its buffered sign: neither another
    tile, nor the baton markers, nor the direction label overwrites
    them. *)
Theorem render_shows_state (s : state) :
  renderable s ->
  exists cv,
    render_canvas (st_S s) (st_E s) (st_buf s) (st_baton_pos s)
      (t_DIR (st_task s)) = Ok cv /\
    forall i r c, In (i, (r, c)) layout_items ->
      item TILES i = Ok (cell cv r c) /\
      s_char (at_ (st_S s) i) = Ok (cell cv r (c + 2)) /\
      halo_char (at_ (st_E s) i) = cell cv r (c + 3) /\
      s_char (at_ (st_buf s) i) = Ok (cell cv r (c + 6)).
Proof.
  intros Hr.
  destruct (render_canvas_ok s Hr) as (Hcv & _ & _ & _).
  exists (canvas_of s); split; [exact Hcv|].
  intros i r c Hin.
  destruct (layout_items_fit _ Hin) as (Hi & Hrr & Hc & _).
  cbn [fst snd] in Hi, Hrr, Hc.
  destruct (cell_markers_data (st_S s) (st_E s) (st_buf s) (st_baton_pos s)
              i r c (rd_pos s Hr) Hin) as (C0 & C2 & C3 & C6).
  assert (Hrow : r <> 11)
    by (cbn in Hin;
        repeat (destruct Hin as [Hin|Hin];
                [injection Hin as <- <- <-; discriminate|]);
        contradiction).
  rewrite !cell_canvas_of by (auto; lia).
  rewrite C0, C2, C3, C6; cbn [mark nth].
  rewrite (item_in_range _ TILES i EmptyString) by (cbn; lia).
  rewrite !s_char_trit
    by (apply at_trit;
        [apply (rd_S_trits s Hr) || apply (rd_buf_trits s Hr)
        |rewrite ?(rd_S s Hr), ?(rd_buf s Hr); lia]).
  repeat split.
Qed.

Lemma render_shows_state_witness :
  exists cv,
    render_canvas (st_S default_start) (st_E default_start)
      (st_buf default_start) (st_baton_pos default_start)
      (t_DIR (st_task default_start)) = Ok cv /\
    cell cv 2 8 = "0"%string /\ cell cv 6 20 = "-"%string.
Proof.
  destruct (render_shows_state default_start renderable_default_start)
    as (cv & Hcv & Hall).
  exists cv; split; [exact Hcv|].
  destruct (Hall 0 2 6) as (_ & HA & _); [cbn; auto|].
  destruct (Hall 3 6 14) as (_ & _ & _ & HD); [cbn; auto 6|].
  cbn in HA, HD; injection HA as <-; injection HD as <-.
  split; reflexivity.
Defined.

(** Where the markers and the label end up.  The caret is always shown,
    one row above the baton's tile (on row 0 for tile B); the "B" above
    it is shown for every tile but B, where the caret is written over it
    in the same cell; and row 11 holds the label "DIR=" followed by the
    direction, then blanks. *)
Theorem render_markers (s : state) :
  renderable s ->
  exists cv,
    render_canvas (st_S s) (st_E s) (st_buf s) (st_baton_pos s)
      (t_DIR (st_task s)) = Ok cv /\
    let br := fst (layout_value (st_baton_pos s)) in
    let bc := snd (layout_value (st_baton_pos s)) in
    cell cv (Z.max (br - 1) 0) (bc + 1) = "^"%string /\
    (st_baton_pos s <> IDX "B" -> cell cv (br - 2) (bc + 1) = "B"%string) /\
    (st_baton_pos s = IDX "B" ->
     cell cv (Z.max (br - 2) 0) (bc + 1) = "^"%string) /\
    (forall j, 0 <= j < 28 ->
       cell cv 11 j
       = nth (Z.to_nat j) (chars ("DIR=" ++ t_DIR (st_task s))) " "%string).
Proof.
  intros Hr.
  destruct (render_canvas_ok s Hr) as (Hcv & _ & Hsh & _).
  exists (canvas_of s); split; [exact Hcv|].
  pose proof (rd_pos s Hr) as Hp.
  assert (Hmark :
    let br := fst (layout_value (st_baton_pos s)) in
    let bc := snd (layout_value (st_baton_pos s)) in
    let cv := markers_drawn (st_S s) (st_E s) (st_buf s) (st_baton_pos s) in
    0 <= br /\ 0 <= bc /\ Z.max (br - 1) 0 <> 11 /\ br - 2 <> 11 /\
    cell cv (Z.max (br - 1) 0) (bc + 1) = "^"%string /\
    (st_baton_pos s <> IDX "B" ->
     0 <= br - 2 /\ cell cv (br - 2) (bc + 1) = "B"%string) /\
    (st_baton_pos s = IDX "B" -> Z.max (br - 2) 0 = Z.max (br - 1) 0) /\
    nth 11 cv [] = repeat " "%string 28).
  { destruct (ring_cases _ Hp) as [E|[E|[E|[E|[E|E]]]]]; rewrite E;
      cbv zeta;
      repeat (split; [try reflexivity; try (cbn; lia); try discriminate|]);
      try reflexivity;
      try (split; [intros _; split; [cbn; lia|reflexivity]|]);
      try (split; [intros Hx; exfalso; apply Hx; reflexivity|]);
      try (split; [intros Hx; try discriminate Hx; reflexivity|]);
      reflexivity. }
  cbv zeta in Hmark |- *.
  destruct Hmark as (Hbr & Hbc & H1 & H2 & Hcaret & HB & HB' & Hrow11).
  split; [rewrite cell_canvas_of by (auto; lia); exact Hcaret|].
  split.
  { intros Hne; destruct (HB Hne) as [Hge Hcell].
    rewrite cell_canvas_of by (auto; lia); exact Hcell. }
  split.
  { intros He; rewrite (HB' He).
    rewrite cell_canvas_of by (auto; lia); exact Hcaret. }
  intros j Hj; unfold canvas_of.
  rewrite cell_paint_cells by (auto using label_fits; lia).
  rewrite Z.eqb_refl; cbn [andb].
  destruct (Z.leb_spec 0 j); [|lia]; cbn [andb].
  replace (j - 0) with j by lia.
  destruct (Z.ltb_spec j
              (0 + Z.of_nat (List.length
                               (chars ("DIR=" ++ t_DIR (st_task s))))))
    as [Hin|Hout]; [reflexivity|].
  rewrite nth_overflow by lia.
  unfold cell; change (Z.to_nat 11) with 11%nat; rewrite Hrow11.
  apply nth_repeat.
Qed.

Lemma render_markers_witness :
  exists cv,
    render_canvas (st_S default_start) (st_E default_start)
      (st_buf default_start) (st_baton_pos default_start)
      (t_DIR (st_task default_start)) = Ok cv /\
    cell cv 1 7 = "^"%string /\ cell cv 0 7 = "B"%string /\
    cell cv 11 4 = "C"%string.
Proof.
  destruct (render_markers default_start renderable_default_start)
    as (cv & Hcv & Hcaret & HB & _ & Hlabel).
  exists cv; split; [exact Hcv|].
  split; [exact Hcaret|].
  split; [apply HB; discriminate|].
  rewrite (Hlabel 4) by lia; reflexivity.
Defined.

(** The halo only tells levels 0, 1, 2 and "3 or more" apart: it is the
    halo of the level clamped to [0, 3], blank exactly for levels that are
    not positive (negative ones included). *)
Theorem halo_char_saturates (e : Z) :
  halo_char e = halo_char (Z.max 0 (Z.min e 3)) /\
  (halo_char e = " "%string <-> e <= 0) /\
  (halo_char e = "*"%string <-> 3 <= e).
Proof.
  unfold halo_char.
  destruct (Z.leb_spec e 0) as [H0|H0].
  - replace (Z.max 0 (Z.min e 3)) with 0 by lia; cbn.
    repeat split; auto; try lia; discriminate.
  - destruct (Z.eqb_spec e 1) as [->|H1];
      [cbn; repeat split; try lia; discriminate|].
    destruct (Z.eqb_spec e 2) as [->|H2];
      [cbn; repeat split; try lia; discriminate|].
    replace (Z.max 0 (Z.min e 3)) with 3 by lia; cbn.
    repeat split; auto; try lia; discriminate.
Qed.

(** ** A whole iteration *)

Lemma put_trits (l : list Z) (i v : Z) :
  Forall trit l -> trit v -> Forall trit (put l i v).
Proof.
  unfold put; generalize (Z.to_nat i) as n.
  induction l as [|x r IH]; intros [|n] HF Hv; simpl; auto;
    inversion HF; subst; constructor; auto.
Qed.

Lemma acquired_trits (S : list Z) (pos : Z) (d : string) :
  Forall trit S -> Forall trit (acquired S pos d).
Proof.
  intros HS; unfold acquired, released.
  apply put_trits; [|unfold trit; auto].
  apply put_trits; [exact HS|apply sign_is_trit, domain_sign_is_sign].
Qed.

Lemma reverse_dir_fits (d : string) :
  (List.length (chars (reverse_dir d)) <= 24)%nat.
Proof.
  unfold reverse_dir; destruct (String.eqb d "CW"); vm_compute; lia.
Qed.

Lemma printable_renderable (s : state) : printable s -> renderable s.
Proof.
  intros [[HS HE Hb Hp Hsg] HtS Hd].
  constructor; auto.
  eapply Forall_impl; [|exact Hsg]; intros v; apply sign_is_trit.
Qed.

Lemma tick_spec_printable (c : config) (s s' : state) (r : report) :
  printable s -> tick_spec c s s' r -> printable s'.
Proof.
  intros [Hwf HtS Hd] Hsp.
  pose proof (tick_spec_well_formed c s s' r Hwf Hsp) as Hwf'.
  pose proof (acquired_trits (st_S s) (st_baton_pos s) (t_DIR (st_task s))
                HtS) as Hacq.
  pose proof (reverse_dir_fits (t_DIR (st_task s))) as Hrev.
  constructor; [exact Hwf'| |];
    inversion Hsp; subst;
    repeat match goal with x := _ |- _ => subst x end;
    cbn [st_S st_task t_DIR]; assumption.
Qed.

(** On printable data (well-formed, [S] made of +1, 0 and -1, a direction
    of at most 24 characters) a whole iteration of the loop, the tick and
    the [render_circle] it prints, raises nothing and leaves printable
    data. *)
Theorem iteration_keeps_printable (c : config) (s : state) :
  printable s ->
  exists s' r out, iteration c s = Ok (s', r, out) /\ printable s'.
Proof.
  intros Hp.
  destruct (tick_total c s (pr_wf s Hp)) as (s' & r & Ht & Hsp).
  pose proof (tick_spec_printable c s s' r Hp Hsp) as Hp'.
  destruct (render_canvas_ok s' (printable_renderable s' Hp')) as (Hcv & _).
  exists s', r; eexists; split; [|exact Hp'].
  unfold iteration; rewrite Ht, bind_Ok; cbn [fst].
  unfold render_state, render_circle; rewrite Hcv, !bind_Ok; reflexivity.
Qed.

Lemma mirror_state_printable : printable (mirror_state 3 0).
Proof.
  constructor; [apply mirror_state_wf| |vm_compute; lia].
  repeat (apply Forall_cons; [unfold trit; auto|]); apply Forall_nil.
Defined.

Lemma iteration_keeps_printable_witness :
  exists s' r out,
    iteration (mkConfig 3 6) (mirror_state 3 0) = Ok (s', r, out) /\
    Forall trit (st_S s').
Proof.
  destruct (iteration_keeps_printable (mkConfig 3 6) (mirror_state 3 0)
              mirror_state_printable) as (s' & r & out & Hit & Hp).
  exists s', r, out; split; [exact Hit|exact (pr_S s' Hp)].
Defined.

(** Outside that domain the iteration can fail where the tick alone does
    not: with a 7 in [S] the tick returns and the rendering of its result
    raises [KeyError]. *)
Example iteration_needs_polarities :
  let s := mkState [1; 0; 1; -1; -1; 7] [0; 0; 0; 0; 0; 0]
                   [1; 1; 1; -1; -1; -1] 1 (new_Task 3) in
  well_formed s /\
  (exists sr, tick (mkConfig 3 6) s = Ok sr) /\
  iteration (mkConfig 3 6) s = Raise KeyError.
Proof.
  split; [|split; [eexists; vm_compute; reflexivity|vm_compute; reflexivity]].
  constructor; cbn; try reflexivity; try lia.
  repeat (apply Forall_cons; [unfold is_sign; auto|]); apply Forall_nil.
Qed.

(** The label is measured in characters, not bytes: a direction of 13
    two-byte characters fits, and each takes one cell of row 11. *)
Example label_counts_characters :
  let d := (middle_dot ++ middle_dot ++ middle_dot ++ middle_dot
            ++ middle_dot ++ middle_dot ++ middle_dot ++ middle_dot
            ++ middle_dot ++ middle_dot ++ middle_dot ++ middle_dot
            ++ middle_dot)%string in
  String.length d = 26%nat /\ List.length (chars d) = 13%nat /\
  exists cv,
    render_canvas [0; 1; 1; -1; -1; -1] [0; 0; 0; 0; 0; 0]
                  [1; 1; 1; -1; -1; -1] 0 d = Ok cv /\
    cell cv 11 4 = middle_dot /\ cell cv 11 16 = middle_dot /\
    cell cv 11 17 = " "%string.
Proof.
  split; [reflexivity|]. split; [reflexivity|].
  eexists; split; [vm_compute; reflexivity|].
  repeat split.
Qed.

End Ana.
